(** * The micro web dashboard and proxy (client/web/web.go)

    A shallow embedding of the request dispatch ([srv.ServeHTTP]), the
    reverse-proxy director ([srv.proxy]), the dashboard route table and the
    TLS/ACME start-up logic of [Run], with the properties the specification
    states about them.

    Go strings are byte strings: [string] with [String.length] for [len].
    The package-level variables are fields of [Globals]; the collaborators
    reached through interfaces (the resolver, the auth service, the template
    engine, the helpers of other packages) are functions taken as fields or
    as section variables. *)

From Stdlib Require Import ZArith Ascii String List.
From stdpp Require Import base option list strings gmap.

Local Open Scope string_scope.

(** ** Strings *)

Module strings.

(** [len(s) == 0] *)
Definition is_empty (s : string) : bool :=
  match s with EmptyString => true | String _ _ => false end.

(** [strings.HasPrefix(s, prefix)], returning what follows the prefix. *)
Fixpoint CutPrefix (s prefix : string) : option string :=
  match prefix, s with
  | EmptyString, _ => Some s
  | String p prefix', String c s' =>
      if Ascii.eqb p c then CutPrefix s' prefix' else None
  | String _ _, EmptyString => None
  end.

Definition HasPrefix (s prefix : string) : bool :=
  match CutPrefix s prefix with Some _ => true | None => false end.

(** The first occurrence of [sep] in [s]: the text before it and the text
    after it ([m := strings.Index(s, sep)], [s[:m]] and [s[m+len(sep):]]). *)
Fixpoint Cut (s sep : string) : option (string * string) :=
  match CutPrefix s sep with
  | Some after => Some (EmptyString, after)
  | None =>
      match s with
      | EmptyString => None
      | String c s' =>
          match Cut s' sep with
          | Some (before, after) => Some (String c before, after)
          | None => None
          end
      end
  end.

(** [strings.Split(s, sep)] for a non-empty [sep]: the pieces between the
    successive, non-overlapping occurrences of [sep], leftmost first.  Each
    cut removes at least one byte, so [length s] rounds are enough. *)
Fixpoint split_rounds (n : nat) (s sep : string) : list string :=
  match n with
  | O => [s]
  | S n' =>
      match Cut s sep with
      | Some (before, after) => before :: split_rounds n' after sep
      | None => [s]
      end
  end.

Definition Split (s sep : string) : list string :=
  split_rounds (String.length s) s sep.

(** [strings.ContainsAny(s, chars)] on single-byte characters. *)
Fixpoint contains_byte (chars : string) (c : ascii) : bool :=
  match chars with
  | EmptyString => false
  | String d chars' => Ascii.eqb d c || contains_byte chars' c
  end.

Fixpoint ContainsAny (s chars : string) : bool :=
  match s with
  | EmptyString => false
  | String c s' => contains_byte chars c || ContainsAny s' chars
  end.

Definition is_lower (c : ascii) : bool :=
  (97 <=? nat_of_ascii c)%nat && (nat_of_ascii c <=? 122)%nat.
Definition is_upper (c : ascii) : bool :=
  (65 <=? nat_of_ascii c)%nat && (nat_of_ascii c <=? 90)%nat.
Definition is_digit (c : ascii) : bool :=
  (48 <=? nat_of_ascii c)%nat && (nat_of_ascii c <=? 57)%nat.

Definition upper_byte (c : ascii) : ascii :=
  if is_lower c then ascii_of_nat (nat_of_ascii c - 32) else c.
Definition lower_byte (c : ascii) : ascii :=
  if is_upper c then ascii_of_nat (nat_of_ascii c + 32) else c.

(** [strings.ToUpper(s)] on ASCII text: the letters a-z are mapped to A-Z,
    every other byte is kept.  (On text outside ASCII Go maps runes with
    the Unicode tables; those are not modelled.) *)
Fixpoint ToUpper (s : string) : string :=
  match s with
  | EmptyString => EmptyString
  | String c s' => String (upper_byte c) (ToUpper s')
  end.

(** [strings.TrimPrefix(s, prefix)] *)
Definition TrimPrefix (s prefix : string) : string :=
  match CutPrefix s prefix with Some rest => rest | None => s end.

(** [strings.TrimSuffix(s, suffix)] *)
Fixpoint TrimSuffix (s suffix : string) : string :=
  if String.eqb s suffix then EmptyString
  else match s with
       | EmptyString => EmptyString
       | String c s' => String c (TrimSuffix s' suffix)
       end.

End strings.

(** ** The resolver's endpoint, request contexts, URLs and requests *)

Module res.

(** The type [resolver.Endpoint] of go-micro, with the fields this package
    reads: a concrete routable backend target. *)
Record Endpoint := mkEndpoint {
  Name : string;
  Host : string;
  Path : string;
}.

End res.

Module context.

(** The keys of a request context.  The resolver stores its endpoint under
    the key [res.Endpoint{}]; every other key is told apart by a name. *)
Inductive Key :=
| EndpointKey
| OtherKey (name : string).

(** The dynamic values a context can hold: a pointer to a [res.Endpoint]
    (possibly the nil pointer), or a value of some other type. *)
Inductive Val :=
| EndpointPtr (p : option res.Endpoint)
| OtherVal (v : string).

#[global] Instance Key_eq_dec : EqDecision Key.
Proof. solve_decision. Defined.

(** A context is the chain of [WithValue] frames, innermost first. *)
Definition Context := list (Key * Val).

Definition Background : Context := [].

Definition WithValue (parent : Context) (k : Key) (v : Val) : Context :=
  (k, v) :: parent.

(** [ctx.Value(k)]: the value of the innermost frame with key [k], or the
    nil interface. *)
Fixpoint Value (c : Context) (k : Key) : option Val :=
  match c with
  | [] => None
  | (k', v) :: parent => if decide (k' = k) then Some v else Value parent k
  end.

(** The type assertion of [v] to a pointer to [res.Endpoint]: the pointer,
    when that is the dynamic type of [v]. *)
Definition asEndpoint (v : option Val) : option (option res.Endpoint) :=
  match v with
  | Some (EndpointPtr p) => Some p
  | Some (OtherVal _) => None
  | None => None
  end.

End context.

Module url.

(** [net/url.URL] *)
Record URL := mkURL {
  Scheme : string;
  Opaque : string;
  User : option string;
  Host : string;
  Path : string;
  RawPath : string;
  ForceQuery : bool;
  RawQuery : string;
  Fragment : string;
}.

Definition set_Scheme (v : string) (u : URL) : URL :=
  mkURL v (Opaque u) (User u) (Host u) (Path u) (RawPath u)
        (ForceQuery u) (RawQuery u) (Fragment u).
Definition set_Host (v : string) (u : URL) : URL :=
  mkURL (Scheme u) (Opaque u) (User u) v (Path u) (RawPath u)
        (ForceQuery u) (RawQuery u) (Fragment u).
Definition set_Path (v : string) (u : URL) : URL :=
  mkURL (Scheme u) (Opaque u) (User u) (Host u) v (RawPath u)
        (ForceQuery u) (RawQuery u) (Fragment u).

End url.

Module http.

(** The bytes a header field name may contain (the token characters of
    RFC 7230). *)
Definition validHeaderFieldByte (c : ascii) : bool :=
  strings.is_lower c || strings.is_upper c || strings.is_digit c
  || strings.contains_byte "!#$%&'*+-.^_`|~" c.

Fixpoint all_valid (s : string) : bool :=
  match s with
  | EmptyString => true
  | String c s' => validHeaderFieldByte c && all_valid s'
  end.

Fixpoint canonical (upper : bool) (s : string) : string :=
  match s with
  | EmptyString => EmptyString
  | String c s' =>
      let c' := if upper then strings.upper_byte c else strings.lower_byte c in
      String c' (canonical (Ascii.eqb c' "-") s')
  end.

(** [textproto.CanonicalMIMEHeaderKey]: the first letter and every letter
    after a hyphen in upper case, the others in lower case; a key with a
    byte that is not a token character is returned unchanged. *)
Definition CanonicalMIMEHeaderKey (s : string) : string :=
  if all_valid s then canonical true s else s.

Abbreviation Header := (gmap string (list string)).

(** [h.Set(key, value)] replaces the values of the canonical key. *)
Definition Header_Set (h : Header) (key value : string) : Header :=
  <[CanonicalMIMEHeaderKey key := [value]]> h.

(** [net/http.Request], with the fields this package reads or writes. *)
Record Request := mkRequest {
  Method : string;
  URL : url.URL;
  Header_ : Header;
  Body : string;
  Host : string;
  ctx : context.Context;
}.

Definition set_URL (u : url.URL) (r : Request) : Request :=
  mkRequest (Method r) u (Header_ r) (Body r) (Host r) (ctx r).
Definition set_Header (h : Header) (r : Request) : Request :=
  mkRequest (Method r) (URL r) h (Body r) (Host r) (ctx r).
Definition set_Host (v : string) (r : Request) : Request :=
  mkRequest (Method r) (URL r) (Header_ r) (Body r) v (ctx r).

(** [r.Clone(ctx)]: a deep copy of [r] with its context changed to [ctx]. *)
Definition Clone (r : Request) (c : context.Context) : Request :=
  mkRequest (Method r) (URL r) (Header_ r) (Body r) (Host r) c.

End http.

(** ** The package-level variables *)

Definition error := string.

Record Globals := mkGlobals {
  Name : string;
  Address : string;
  Namespace : string;
  Type_ : string;
  Resolver : string;
  BasePathHeader : string;
  statsURL : string;
  loginURL : string;
  ACMEProvider : string;
  ACMEChallengeProvider : string;
  ACMECA : string;
}.

(** [acme.LetsEncryptProductionCA], a constant of go-micro's acme package:
    the production directory of the CA. *)
Definition LetsEncryptProductionCA : string :=
  "https://acme-v02.api.letsencrypt.org/directory".

(** The values the [var] block declares. *)
Definition initial : Globals := {|
  Name := "go.micro.web";
  Address := ":8082";
  Namespace := "go.micro";
  Type_ := "web";
  Resolver := "path";
  BasePathHeader := "X-Micro-Web-Base-Path";
  statsURL := "";
  loginURL := "";
  ACMEProvider := "autocert";
  ACMEChallengeProvider := "cloudflare";
  ACMECA := LetsEncryptProductionCA;
|}.

(** ** The dashboard route table (gorilla/mux) *)

Module mux.

(** The handlers [Run] registers. *)
Inductive Handler :=
| HStats | HFavicon | HNotFound | HCall | HRegistry | HRPC | HProxy | HIndex.

#[global] Instance Handler_eq_dec : EqDecision Handler.
Proof. solve_decision. Defined.

(** The character classes of the path variables in use: [{name}] stands
    for one or more bytes other than a slash, [{service:[a-zA-Z0-9]+}] for
    one or more ASCII letters or digits. *)
Inductive CharClass := NotSlash | Alnum.

Definition in_class (cl : CharClass) (c : ascii) : bool :=
  match cl with
  | NotSlash => negb (Ascii.eqb c "/")
  | Alnum => strings.is_lower c || strings.is_upper c || strings.is_digit c
  end.

Fixpoint all_in_class (cl : CharClass) (s : string) : bool :=
  match s with
  | EmptyString => true
  | String c s' => in_class cl c && all_in_class cl s'
  end.

(** A route: a path template made of a literal text followed by at most
    one variable, matched against the whole path ([HandleFunc], [Path]) or
    against a prefix of it ([PathPrefix]). *)
Record Route := mkRoute {
  literal : string;
  variable : option CharClass;
  prefix : bool;
  handler : Handler;
}.

Definition HandleFunc (literal : string) (v : option CharClass) (h : Handler) : Route :=
  mkRoute literal v false h.
Definition PathPrefix (literal : string) (v : option CharClass) (h : Handler) : Route :=
  mkRoute literal v true h.

(** Does the route's template match the path? *)
Definition Match (rt : Route) (path : string) : bool :=
  match strings.CutPrefix path (literal rt) with
  | None => false
  | Some rest =>
      match variable rt, rest with
      | None, _ => prefix rt || strings.is_empty rest
      | Some cl, EmptyString => false
      | Some cl, String c rest' =>
          in_class cl c && (prefix rt || all_in_class cl rest')
      end
  end.

(** The elements of a path between its slashes. *)
Fixpoint elements (cur : string) (p : string) : list string :=
  match p with
  | EmptyString => [cur]
  | String c p' =>
      if Ascii.eqb c "/" then cur :: elements EmptyString p'
      else elements (cur +:+ String c EmptyString) p'
  end.

Definition clean_step (stack : list string) (elem : string) : list string :=
  if String.eqb elem "" || String.eqb elem "." then stack
  else if String.eqb elem ".." then removelast stack
  else stack ++ [elem].

Definition join_rooted (stack : list string) : string :=
  match stack with
  | [] => "/"
  | _ => fold_left (fun acc e => acc +:+ "/" +:+ e) stack ""
  end.

(** [path.Clean] on a rooted path: empty and [.] elements are dropped,
    [..] drops the element before it (and is dropped at the root). *)
Definition path_Clean (p : string) : string :=
  join_rooted (fold_left clean_step (elements "" p) []).

Fixpoint last_byte (s : string) : option ascii :=
  match s with
  | EmptyString => None
  | String c EmptyString => Some c
  | String _ s' => last_byte s'
  end.

(** mux's [cleanPath]: the canonical form of a request path, keeping a
    trailing slash. *)
Definition cleanPath (p : string) : string :=
  match p with
  | EmptyString => "/"
  | String c _ =>
      let p := if Ascii.eqb c "/" then p else "/" +:+ p in
      let np := path_Clean p in
      if bool_decide (last_byte p = Some "/"%char) && negb (String.eqb np "/")
      then np +:+ "/" else np
  end.

(** What [Router.ServeHTTP] does with a request: redirect it to the clean
    form of its path, hand it to the first route that matches, or answer
    404 when none does. *)
Inductive Dispatch :=
| Redirect (code : Z) (location : url.URL)
| Handle (h : Handler)
| NotFound.

Definition ServeHTTP (routes : list Route) (r : http.Request) : Dispatch :=
  let path := url.Path (http.URL r) in
  let p := cleanPath path in
  if negb (String.eqb p path) then Redirect 301 (url.set_Path p (http.URL r))
  else match find (fun rt => Match rt path) routes with
       | Some rt => Handle (handler rt)
       | None => NotFound
       end.

End mux.

(** ** Running code that may panic *)

Inductive Outcome (A : Type) :=
| Done (a : A)
| Panic.
Arguments Done {A} a.
Arguments Panic {A}.

(** ** What a handler does with its [http.ResponseWriter] *)

Inductive WOp :=
| SetCORS                                (* cors.SetHeaders(w, r) *)
| Write (b : string)                     (* w.Write(b) *)
| Error (msg : string) (code : Z).       (* http.Error(w, msg, code) *)

(** The status line of the response: the first write fixes it, to 200 for a
    plain [Write] and to the given code for [http.Error]; a handler that
    writes nothing answers 200. *)
Fixpoint status (ops : list WOp) : Z :=
  match ops with
  | [] => 200
  | SetCORS :: ops' => status ops'
  | Write _ :: _ => 200
  | Error _ code :: _ => code
  end.

(** ** The server *)

Record Service := mkService {
  service_Name : string;
  service_Version : string;
}.

Record Account := mkAccount { ID : string }.

Record webService := mkWebService {
  ws_Name : string;
  ws_Link : string;
  ws_Icon : string;
}.

Module registry.

(** [registry.Value], a field of a request or response type: its name, its
    type and the fields it is made of (none of them nil). *)
#[warnings="-register-all"]
Inductive Value :=
| mkValue (Name : string) (Type_ : string) (Values : list Value).

Definition Values (v : Value) : list Value :=
  match v with mkValue _ _ values => values end.

(** [registry.Endpoint] and [registry.Service], with the fields this package
    reads. *)
Record Endpoint := mkEndpoint {
  ep_Name : string;
  ep_Request : option Value;
  ep_Response : option Value;
}.

Record Service := mkService {
  Name : string;
  Version : string;
  Endpoints : list Endpoint;
}.

End registry.

(** The [data] of the registry pages. *)
Inductive Page :=
| ServicePage (sv : list registry.Service)
| RegistryPage (services : list registry.Service)
| CallPage (serviceMap : gmap string (list registry.Endpoint)).

(** The [data] handed to [render]: nil, the index page's [templateData], or
    the data of a registry page. *)
Inductive Results :=
| NilResults
| IndexResults (HasWebServices : bool) (WebServices : list webService)
| PageResults (p : Page).

(** The map [render] executes the layout with. *)
Record LayoutData := mkLayoutData {
  ld_LoginTitle : string;
  ld_LoginURL : string;
  ld_StatsURL : string;
  ld_Results : Results;
  ld_User : string;
}.

(** [srv]: the mux router's route table, the registry, the resolver and the
    auth service.  [Resolve] receives a pointer to the request, so it returns
    the request as it leaves it together with its two results.  The field
    [prx] is not a field here: [Run] sets it to [s.proxy()] before the server
    starts, and [proxy] below is that value. *)
Record srv := mkSrv {
  Router : list mux.Route;
  ListServices : list Service * option error;
  Resolve : http.Request -> http.Request * (option res.Endpoint * option error);
  Inspect : string -> Account + error;
}.

(** The calls [srv.ServeHTTP] makes on its collaborators, in order. *)
Inductive Call :=
| CallResolve (r : http.Request)
| CallProxy (r : http.Request)
| CallRouter (r : http.Request).

Definition is_CallResolve (c : Call) : bool :=
  match c with CallResolve _ => true | _ => false end.

(** How a request ends up being served. *)
Inductive Served :=
| Proxied (out : http.Request)          (* forwarded by the reverse proxy *)
| ProxyPanic                            (* the director dereferenced nil *)
| Dashboard (h : mux.Handler) (r : http.Request)
| MuxRedirect (code : Z) (location : url.URL)
| MuxNotFound.

Record Result := mkResult {
  calls : list Call;
  request : http.Request;               (* the caller's [*r] afterwards *)
  served : Served;
}.

(** The [director] closure of [srv.proxy]. *)
Definition director (g : Globals) (r : http.Request) : Outcome http.Request :=
  match context.asEndpoint (context.Value (http.ctx r) context.EndpointKey) with
  | None =>
      Done (http.set_URL (url.set_Path "/not-found" (http.URL r)) r)
  | Some None => Panic
  | Some (Some endpoint) =>
      let r := http.set_Header
                 (http.Header_Set (http.Header_ r) (BasePathHeader g)
                                  ("/" +:+ res.Name endpoint)) r in
      let r := http.set_URL (url.set_Host (res.Host endpoint) (http.URL r)) r in
      let r := http.set_URL (url.set_Path (res.Path endpoint) (http.URL r)) r in
      let r := http.set_URL (url.set_Scheme "http" (http.URL r)) r in
      let r := http.set_Host (url.Host (http.URL r)) r in
      Done r
  end.

(** The type [proxy]: its router is a [httputil.ReverseProxy] with the same
    director. *)
Record proxy := mkProxy {
  Director : http.Request -> Outcome http.Request;
}.

Definition srv_proxy (g : Globals) : proxy :=
  {| Director := director g |}.

(** Modelled from the spec: [proxy.ServeHTTP], declared in another file of
    the package.  The transport constructs the outbound request by running
    the director on the request it is handed, and forwards it. *)
Definition proxy_ServeHTTP (p : proxy) (r : http.Request) : Served :=
  match Director p r with
  | Done out => Proxied out
  | Panic => ProxyPanic
  end.

(** [s.Router.ServeHTTP]: the route table, whose catch-all route leads to
    the proxy.  (The router may attach the variables of the matched route to
    the context of the request, under keys of its own; the endpoint key is
    not among them, and they are left out.) *)
Definition Router_ServeHTTP (g : Globals) (s : srv) (r : http.Request) : Served :=
  match mux.ServeHTTP (Router s) r with
  | mux.Redirect code location => MuxRedirect code location
  | mux.Handle mux.HProxy => proxy_ServeHTTP (srv_proxy g) r
  | mux.Handle h => Dashboard h r
  | mux.NotFound => MuxNotFound
  end.

(** [srv.ServeHTTP]: set the defaults on the request, proxy when the context
    already holds an endpoint, else resolve and proxy, or fall through to the
    mux router when the resolver fails. *)
Definition ServeHTTP (g : Globals) (s : srv) (r : http.Request) : Result :=
  let r := if strings.is_empty (url.Host (http.URL r))
           then http.set_URL (url.set_Host (http.Host r) (http.URL r)) r
           else r in
  let r := if strings.is_empty (url.Scheme (http.URL r))
           then http.set_URL (url.set_Scheme "http" (http.URL r)) r
           else r in
  match context.asEndpoint (context.Value (http.ctx r) context.EndpointKey) with
  | Some _ =>
      mkResult [CallProxy r] r (proxy_ServeHTTP (srv_proxy g) r)
  | None =>
      let '(r1, (endpoint, err)) := Resolve s r in
      match err with
      | Some _ =>
          mkResult [CallResolve r; CallRouter r1] r1 (Router_ServeHTTP g s r1)
      | None =>
          let r2 := http.Clone r1
                      (context.WithValue (http.ctx r1) context.EndpointKey
                                         (context.EndpointPtr endpoint)) in
          mkResult [CallResolve r; CallProxy r2] r2
                   (proxy_ServeHTTP (srv_proxy g) r2)
      end
  end.

(** The request once [srv.ServeHTTP] has set its defaults, field by field:
    the URL's host is the request's [Host] when it was empty, its scheme is
    [http] when it was empty, and nothing else differs. *)
Definition with_defaults (r : http.Request) : http.Request :=
  let u := http.URL r in
  http.mkRequest
    (http.Method r)
    (url.mkURL
       (if strings.is_empty (url.Scheme u) then "http" else url.Scheme u)
       (url.Opaque u)
       (url.User u)
       (if strings.is_empty (url.Host u) then http.Host r else url.Host u)
       (url.Path u)
       (url.RawPath u)
       (url.ForceQuery u)
       (url.RawQuery u)
       (url.Fragment u))
    (http.Header_ r)
    (http.Body r)
    (http.Host r)
    (http.ctx r).

(** The request with only the path of its URL replaced. *)
Definition with_path (path : string) (r : http.Request) : http.Request :=
  let u := http.URL r in
  http.mkRequest
    (http.Method r)
    (url.mkURL (url.Scheme u) (url.Opaque u) (url.User u) (url.Host u) path
               (url.RawPath u) (url.ForceQuery u) (url.RawQuery u) (url.Fragment u))
    (http.Header_ r)
    (http.Body r)
    (http.Host r)
    (http.ctx r).

(** The outbound request for endpoint [e], field by field: scheme, host and
    path of the URL, the [Host] field and one header are new. *)
Definition proxied_to (header : string) (e : res.Endpoint) (r : http.Request)
  : http.Request :=
  let u := http.URL r in
  http.mkRequest
    (http.Method r)
    (url.mkURL "http" (url.Opaque u) (url.User u) (res.Host e) (res.Path e)
               (url.RawPath u) (url.ForceQuery u) (url.RawQuery u) (url.Fragment u))
    (<[header := ["/" +:+ res.Name e]]> (http.Header_ r))
    (http.Body r)
    (res.Host e)
    (http.ctx r).

(** ** The dashboard handlers *)

Definition faviconHandler (r : http.Request) : list WOp := [].

Section Templates.

(** The template engine ([html/template]) and the texts of the package's
    templates, which are declared in another file. *)
Variable Template : Type.
Variable New : Template.
Variable Parse : Template -> string -> Template + error.
Variable ExecuteTemplate :
  Template -> string -> LayoutData -> list string * option error.
Variables layoutTemplate notFoundTemplate indexTemplate : string.

(** [r.Cookie(name)]: the value of the named cookie of the request, and the
    name of the token cookie, a constant of the internal auth package. *)
Variable Cookie : http.Request -> string -> option string.
Variable TokenCookieName : string.

(** [publicsuffix.EffectiveTLDPlusOne(r.URL.Hostname())] (its error is
    dropped), and [sort.Slice] by [Name]. *)
Variable EffectiveTLDPlusOne : string -> string.
Variable Hostname : url.URL -> string.
Variable sort_by_Name : list webService -> list webService.

Definition render (g : Globals) (s : srv) (r : http.Request)
           (tmpl : string) (data : Results) : list WOp :=
  match Parse New layoutTemplate with
  | inr err => [Error ("Error occurred:" +:+ err) 500]
  | inl t =>
      match Parse t tmpl with
      | inr err => [Error ("Error occurred:" +:+ err) 500]
      | inl t =>
          let '(loginTitle, user) :=
            match Cookie r TokenCookieName with
            | Some value =>
                let token := strings.TrimPrefix value (TokenCookieName +:+ "=") in
                match Inspect s token with
                | inl acc => ("Account", ID acc)
                | inr _ => ("Login", "")
                end
            | None => ("Login", "")
            end in
          let '(written, err) :=
            ExecuteTemplate t "layout"
              (mkLayoutData loginTitle (loginURL g) (statsURL g) data user) in
          match err with
          | Some err => map Write written ++ [Error ("Error occurred:" +:+ err) 500]
          | None => map Write written
          end
      end
  end.

Definition notFoundHandler (g : Globals) (s : srv) (r : http.Request) : list WOp :=
  render g s r notFoundTemplate NilResults.

(** The body of the loop of [indexHandler] for one registered service:
    nothing for a service that is not a web app, else its entry. *)
Definition webService_of (g : Globals) (domain : string) (svc : Service)
  : option webService :=
  let comps := strings.Split (service_Name svc) ".web." in
  match comps with
  | _ :: name :: _ =>
      let link := "/" +:+ name +:+ "/" in
      let link := if String.eqb (Resolver g) "subdomain"
                     && negb (strings.is_empty domain)
                  then "https://" +:+ name +:+ "." +:+ domain else link in
      let name := if (String.length name <=? 3)%nat
                     && strings.ContainsAny name "012345789"
                  then strings.ToUpper name else name in
      Some (mkWebService name link "")
  | _ => None
  end.

Definition indexHandler (g : Globals) (s : srv) (r : http.Request) : list WOp :=
  if String.eqb (http.Method r) "OPTIONS" then [SetCORS]
  else
    let '(services, _) := ListServices s in
    let domain := EffectiveTLDPlusOne (Hostname (http.URL r)) in
    let webServices := omap (webService_of g domain) services in
    let webServices := sort_by_Name webServices in
    SetCORS :: render g s r indexTemplate
                 (IndexResults (0 <? length webServices)%nat webServices).

(** The handler functions [Run] registers under the routes, for the
    handlers above: what each writes for a request the router hands to it.
    The registry pages are [registryHandler] and [callHandler] below; the
    statistics and RPC handlers belong to other packages, and the catch-all
    route leads to the proxy. *)
Definition dashboard_response (g : Globals) (s : srv) (h : mux.Handler)
           (r : http.Request) : option (list WOp) :=
  match h with
  | mux.HFavicon => Some (faviconHandler r)
  | mux.HNotFound => Some (notFoundHandler g s r)
  | mux.HIndex => Some (indexHandler g s r)
  | mux.HStats | mux.HCall | mux.HRegistry | mux.HRPC | mux.HProxy => None
  end.

End Templates.

(** ** Start-up: the server options and the listener *)

Module cli.

(** The flags of a [cli.Context]: a flag that is not set reads as the empty
    string, or as false. *)
Record Context := mkContext {
  string_flags : gmap string string;
  bool_flags : gmap string bool;
}.

Definition String (c : Context) (name : string) : string :=
  default "" (string_flags c !! name).
Definition Bool (c : Context) (name : string) : bool :=
  default false (bool_flags c !! name).

End cli.

Module cloudflare.

(** The fields of the provider's configuration that [Run] sets. *)
Record Config := mkConfig {
  AuthToken : string;
  ZoneToken : string;
}.

Definition NewDefaultConfig : Config := mkConfig "" "".

(** A DNS challenge provider built from a configuration. *)
Record DNSProvider := mkDNSProvider { config : Config }.

End cloudflare.

Module memory.
(** [memory.NewSync()]: the in-process implementation of go-micro's sync
    (lock) interface. *)
Inductive Sync := NewSync.
End memory.

Module acme.

Record Storage := mkStorage {
  lock : memory.Sync;
  store : string;
}.

Inductive Option :=
| AcceptToS (b : bool)
| CA (ca : string)
| Cache (c : Storage)
| ChallengeProvider (p : cloudflare.DNSProvider)
| OnDemand (b : bool).

Inductive Provider :=
| Autocert
| Certmagic (opts : list Option).

End acme.

Module autocert.
Definition NewProvider : acme.Provider := acme.Autocert.
End autocert.

Module certmagic.
Definition NewStorage (lock : memory.Sync) (store : string) : acme.Storage :=
  acme.mkStorage lock store.
Definition NewProvider (opts : list acme.Option) : acme.Provider :=
  acme.Certmagic opts.
End certmagic.

Module server.

Inductive Option :=
| EnableACME (b : bool)
| ACMEHosts (hosts : list string)
| ACMEProvider (p : acme.Provider)
| EnableTLS (b : bool)
| TLSConfig (config : string).


End server.

(** What [Run] finds around it: the command line, the process environment,
    and the results of the helpers and libraries it calls. *)
Record Env := mkEnv {
  flags : cli.Context;
  environ : gmap string string;
  helper_ACMEHosts : list string;
  helper_TLSConfig : string + error;
  NewDNSProviderConfig : cloudflare.Config -> cloudflare.DNSProvider + error;
  service_Store : string;
  srv_Start : option error;
}.

(** The steps of [Run] that the properties below speak about. *)
Inductive Effect :=
| ReadString (name : string)
| ReadBool (name : string)
| Getenv (key : string)
| CallACMEHosts
| CallTLSConfig
| CallNewDNSProvider (c : cloudflare.Config)
| Println (msg : string)
| ServerInit (opts : list server.Option)
| ServerStart.


(** How [Run] stops early: [log.Fatal] ends the process with status 1, a
    plain [return] hands control back to the caller. *)
Inductive Stop :=
| Fatal (msg : string)
| Return.

Definition exit_status (s : Stop) : option Z :=
  match s with
  | Fatal _ => Some 1%Z
  | Return => None
  end.

Record World := mkWorld {
  vars : Globals;
  trace : list Effect;
}.

(** The monad of [Run]: a state (the package variables and the trace) and an
    early stop. *)
Definition M (A : Type) : Type := World -> World * (A + Stop).

#[global] Instance M_ret : MRet M := fun A a w => (w, inl a).
#[global] Instance M_bind : MBind M := fun A B f m w =>
  match m w with
  | (w', inl a) => f a w'
  | (w', inr stop) => (w', inr stop)
  end.

Definition emit (e : Effect) : M unit :=
  fun w => (mkWorld (vars w) (trace w ++ [e]), inl tt).
Definition get : M Globals := fun w => (w, inl (vars w)).
Definition modify (f : Globals -> Globals) : M unit :=
  fun w => (mkWorld (f (vars w)) (trace w), inl tt).
Definition stop {A} (s : Stop) : M A := fun w => (w, inr s).

Definition log_Fatal {A} (msg : string) : M A := stop (Fatal msg).

Definition ctx_String (e : Env) (name : string) : M string :=
  emit (ReadString name) ;; mret (cli.String (flags e) name).
Definition ctx_Bool (e : Env) (name : string) : M bool :=
  emit (ReadBool name) ;; mret (cli.Bool (flags e) name).
Definition os_Getenv (e : Env) (key : string) : M string :=
  emit (Getenv key) ;; mret (default "" (environ e !! key)).

Definition set_Name (v : string) (g : Globals) : Globals :=
  mkGlobals v (Address g) (Namespace g) (Type_ g) (Resolver g) (BasePathHeader g)
            (statsURL g) (loginURL g) (ACMEProvider g) (ACMEChallengeProvider g) (ACMECA g).
Definition set_Address (v : string) (g : Globals) : Globals :=
  mkGlobals (Name g) v (Namespace g) (Type_ g) (Resolver g) (BasePathHeader g)
            (statsURL g) (loginURL g) (ACMEProvider g) (ACMEChallengeProvider g) (ACMECA g).
Definition set_Namespace (v : string) (g : Globals) : Globals :=
  mkGlobals (Name g) (Address g) v (Type_ g) (Resolver g) (BasePathHeader g)
            (statsURL g) (loginURL g) (ACMEProvider g) (ACMEChallengeProvider g) (ACMECA g).
Definition set_Type (v : string) (g : Globals) : Globals :=
  mkGlobals (Name g) (Address g) (Namespace g) v (Resolver g) (BasePathHeader g)
            (statsURL g) (loginURL g) (ACMEProvider g) (ACMEChallengeProvider g) (ACMECA g).
Definition set_Resolver (v : string) (g : Globals) : Globals :=
  mkGlobals (Name g) (Address g) (Namespace g) (Type_ g) v (BasePathHeader g)
            (statsURL g) (loginURL g) (ACMEProvider g) (ACMEChallengeProvider g) (ACMECA g).
Definition set_statsURL (v : string) (g : Globals) : Globals :=
  mkGlobals (Name g) (Address g) (Namespace g) (Type_ g) (Resolver g) (BasePathHeader g)
            v (loginURL g) (ACMEProvider g) (ACMEChallengeProvider g) (ACMECA g).
Definition set_loginURL (v : string) (g : Globals) : Globals :=
  mkGlobals (Name g) (Address g) (Namespace g) (Type_ g) (Resolver g) (BasePathHeader g)
            (statsURL g) v (ACMEProvider g) (ACMEChallengeProvider g) (ACMECA g).
Definition set_ACMEProvider (v : string) (g : Globals) : Globals :=
  mkGlobals (Name g) (Address g) (Namespace g) (Type_ g) (Resolver g) (BasePathHeader g)
            (statsURL g) (loginURL g) v (ACMEChallengeProvider g) (ACMECA g).

(** [if len(ctx.String(name)) > 0 { X = ctx.String(name) }] *)
Definition override (e : Env) (name : string)
           (set : string -> Globals -> Globals) : M unit :=
  v ← ctx_String e name;
  if strings.is_empty v then mret tt
  else v ← ctx_String e name; modify (set v).

(** The resolver [Run] builds. *)
Inductive ResolverKind :=
| WebResolver (namespace : string)
| SubdomainResolver (inner : ResolverKind).

(** The routes [Run] registers after the optional stats route, in order. *)
Definition routes : list mux.Route := [
  mux.HandleFunc "/favicon.ico" None mux.HFavicon;
  mux.HandleFunc "/not-found" None mux.HNotFound;
  mux.HandleFunc "/client" None mux.HCall;
  mux.HandleFunc "/services" None mux.HRegistry;
  mux.HandleFunc "/service/" (Some mux.NotSlash) mux.HRegistry;
  mux.HandleFunc "/rpc" None mux.HRPC;
  mux.PathPrefix "/" (Some mux.Alnum) mux.HProxy;
  mux.HandleFunc "/" None mux.HIndex
].

(** The [switch ACMEProvider] of [Run], reached with ACME enabled. *)
Definition acme_provider (e : Env) : M acme.Provider :=
  g ← get;
  if String.eqb (ACMEProvider g) "autocert" then
    mret autocert.NewProvider
  else if String.eqb (ACMEProvider g) "certmagic" then
    (if negb (String.eqb (ACMEChallengeProvider g) "cloudflare")
     then log_Fatal "The only implemented DNS challenge provider is cloudflare"
     else mret tt) ;;
    apiToken ← os_Getenv e "CF_API_TOKEN";
    (if strings.is_empty apiToken
     then log_Fatal "env variables CF_API_TOKEN and CF_ACCOUNT_ID must be set"
     else mret tt) ;;
    let storage := certmagic.NewStorage memory.NewSync (service_Store e) in
    let config := cloudflare.mkConfig apiToken apiToken in
    emit (CallNewDNSProvider config) ;;
    match NewDNSProviderConfig e config with
    | inr err => log_Fatal err
    | inl challengeProvider =>
        mret (certmagic.NewProvider [
                acme.AcceptToS true;
                acme.CA (ACMECA g);
                acme.Cache storage;
                acme.ChallengeProvider challengeProvider;
                acme.OnDemand false ])
    end
  else
    log_Fatal (ACMEProvider g +:+ " is not a valid ACME provider" +:+ String "010"%char "").

(** The server options of [Run]: ACME, else static TLS, else none. *)
Definition server_options (e : Env) : M (list server.Option) :=
  override e "acme_provider" set_ACMEProvider ;;
  enable_acme ← ctx_Bool e "enable_acme";
  if (enable_acme : bool) then
    emit CallACMEHosts ;;
    let hosts := helper_ACMEHosts e in
    let opts := [server.EnableACME true; server.ACMEHosts hosts] in
    p ← acme_provider e;
    mret (opts ++ [server.ACMEProvider p])%list
  else
    enable_tls ← ctx_Bool e "enable_tls";
    if (enable_tls : bool) then
      emit CallTLSConfig ;;
      match helper_TLSConfig e with
      | inr err => emit (Println err) ;; stop Return
      | inl config => mret [server.EnableTLS true; server.TLSConfig config]
      end
    else mret [].

(** What is up once [srv.Start()] has returned without an error. *)
Record Running := mkRunning {
  run_resolver : ResolverKind;
  run_routes : list mux.Route;
  run_opts : list server.Option;
}.

(** The first part of [Run]: the package variables are set from the flags,
    and the resolver is chosen. *)
Definition configure (e : Env) : M ResolverKind :=
  override e "server_name" set_Name ;;
  override e "address" set_Address ;;
  override e "resolver" set_Resolver ;;
  override e "type" set_Type ;;
  ns ← ctx_String e "namespace";
  (if strings.is_empty ns then mret tt
   else ns ← ctx_String e "namespace";
        g ← get;
        modify (set_Namespace (strings.TrimSuffix ns ("." +:+ Type_ g)))) ;;
  g ← get;
  let rr := WebResolver (Namespace g +:+ "." +:+ Type_ g) in
  mret (if String.eqb (Resolver g) "subdomain" then SubdomainResolver rr else rr).

(** The route table of [Run]. *)
Definition register (e : Env) : M (list mux.Route) :=
  enable_stats ← ctx_Bool e "enable_stats";
  stats_routes ← (if (enable_stats : bool)
                  then modify (set_statsURL "/stats") ;;
                       mret [mux.HandleFunc "/stats" None mux.HStats]
                  else mret []);
  mret (stats_routes ++ routes)%list.

(** The end of [Run], up to the start of the HTTP server: the server is
    initialised with the options, the login URL is set, the server starts. *)
Definition listen (e : Env) (opts : list server.Option) : M unit :=
  emit (ServerInit opts) ;;
  login ← ctx_String e "auth_login_url";
  (if strings.is_empty login then mret tt
   else login ← ctx_String e "auth_login_url"; modify (set_loginURL login)) ;;
  emit ServerStart ;;
  match srv_Start e with
  | Some err => log_Fatal err
  | None => mret tt
  end.

(** [Run], up to the start of the HTTP server.  Left out: the logger and the
    plugins, the construction of the go-micro service and of the registry,
    the stats collector, the handler wrappers; then [service.Run()] and
    [srv.Stop()]. *)
Definition Run (e : Env) : M Running :=
  rr ← configure e;
  table ← register e;
  opts ← server_options e;
  listen e opts ;;
  mret (mkRunning rr table opts).

(** [Run] from the declared values of the package variables. *)
Definition start (e : Env) : World * (Running + Stop) :=
  Run e (mkWorld initial []).

(** The name of the ACME provider in force when [Run] reaches its switch:
    the flag when it is set, else the package variable. *)
Definition provider_in_force (e : Env) (g : Globals) : string :=
  let v := cli.String (flags e) "acme_provider" in
  if strings.is_empty v then ACMEProvider g else v.

(** The steps before the server is set up: everything but [srv.Init] and
    [srv.Start]. *)
Definition before_listening (ev : Effect) : bool :=
  match ev with
  | ServerInit _ | ServerStart => false
  | _ => true
  end.



(** The flag reads of the first two parts of [Run]. *)
Definition is_config_read (ev : Effect) : bool :=
  match ev with
  | ReadString _ => true
  | ReadBool name => String.eqb name "enable_stats"
  | _ => false
  end.

(** The world [w'] continues [w] with steps that all satisfy [P], and with the
    same ACME variables and base-path header. *)
Definition continues (P : Effect -> bool) (w w' : World) : Prop :=
  (exists l, trace w' = (trace w ++ l)%list /\ forallb P l = true)
  /\ ACMEChallengeProvider (vars w') = ACMEChallengeProvider (vars w)
  /\ ACMECA (vars w') = ACMECA (vars w)
  /\ BasePathHeader (vars w') = BasePathHeader (vars w).

(** The steps of [Run] up to its server options when ACME is enabled. *)
Definition is_acme_step (ev : Effect) : bool :=
  match ev with
  | ReadString _ | Getenv _ | CallACMEHosts | CallNewDNSProvider _ => true
  | ReadBool name => String.eqb name "enable_stats" || String.eqb name "enable_acme"
  | _ => false
  end.

(** The route tables [Run] can build: the routes above, after the stats
    route when statistics are enabled. *)
Definition registered (table : list mux.Route) : Prop :=
  table = routes \/ table = mux.HandleFunc "/stats" None mux.HStats :: routes.

(** A request ends on the not-found page: it is served by the not-found
    handler, or proxied with the path of the not-found page. *)
Definition not_found_served (x : Served) : Prop :=
  match x with
  | Dashboard h _ => h = mux.HNotFound
  | Proxied out => url.Path (http.URL out) = "/not-found"
  | ProxyPanic | MuxRedirect _ _ | MuxNotFound => False
  end.

(** ** Sample data

    A path resolver that knows one web service, [chat], with one instance;
    requests for it and for other paths; a template engine that accepts
    every text. *)

Module Sample.

Definition chat : res.Endpoint :=
  res.mkEndpoint "chat" "10.0.0.7:8080" "/messages".

Definition get (path : string) (c : context.Context) : http.Request :=
  http.mkRequest "GET"
    (url.mkURL "" "" None "" path "" false "page=2" "")
    ∅ "" "edge.example.com" c.

Definition resolve (r : http.Request)
  : http.Request * (option res.Endpoint * option error) :=
  if strings.HasPrefix (url.Path (http.URL r)) "/chat/"
  then (r, (Some chat, None))
  else (r, (None, Some "not found")).

Definition s : srv :=
  mkSrv routes ([mkService "go.micro.web.chat" "latest"], None) resolve
        (fun _ => inr "invalid token").

(** The request after the access check resolved it. *)
Definition checked : http.Request :=
  get "/chat/messages"
      [(context.OtherKey "account", context.OtherVal "alice");
       (context.EndpointKey, context.EndpointPtr (Some chat))].

Definition Parse (t : list string) (text : string) : list string + error :=
  inl (text :: t).
Definition ExecuteTemplate (t : list string) (name : string) (d : LayoutData)
  : list string * option error :=
  (rev t, None).

Definition dns (c : cloudflare.Config) : cloudflare.DNSProvider + error :=
  inl (cloudflare.mkDNSProvider c).

Definition env (provider : string) (acme tls : bool) (token : option string) : Env :=
  mkEnv (cli.mkContext {[ "acme_provider" := provider ]}
                       {[ "enable_acme" := acme; "enable_tls" := tls ]})
        (match token with Some t => {[ "CF_API_TOKEN" := t ]} | None => ∅ end)
        ["edge.example.com"] (inl "cert.pem+key.pem") dns "store" None.

End Sample.

(** A registry that holds a web service named [not-found]: the path resolver
    resolves the path [/not-found], and what is below it, to an instance of
    that service, and no other path. *)
Module SamplePage.

Definition page : res.Endpoint :=
  res.mkEndpoint "not-found" "10.0.0.9:8080" "/".

Definition resolve (r : http.Request)
  : http.Request * (option res.Endpoint * option error) :=
  if String.eqb (url.Path (http.URL r)) "/not-found"
     || strings.HasPrefix (url.Path (http.URL r)) "/not-found/"
  then (r, (Some page, None))
  else (r, (None, Some "not found")).

Definition s : srv :=
  mkSrv routes ([mkService "go.micro.web.not-found" "latest"], None) resolve
        (fun _ => inr "invalid token").

End SamplePage.

(** ** The helpers of the package *)

(** [reverse]: the slice is reversed in place by swapping the elements at
    [i] and [j], which move towards each other.  An index out of range
    would panic.  Every round brings [i] and [j] closer, so [fuel] rounds
    are enough when [fuel] is at least the length of the slice. *)
Fixpoint reverse_loop (fuel : nat) (i j : Z) (s : list string)
  : Outcome (list string) :=
  if (i <? j)%Z then
    match fuel with
    | O => Panic
    | S fuel' =>
        match s !! Z.to_nat i, s !! Z.to_nat j with
        | Some a, Some b =>
            reverse_loop fuel' (i + 1)%Z (j - 1)%Z
                         (<[Z.to_nat j := a]> (<[Z.to_nat i := b]> s))
        | _, _ => Panic
        end
    end
  else Done s.

Definition reverse (s : list string) : Outcome (list string) :=
  reverse_loop (length s) 0%Z (Z.of_nat (length s) - 1)%Z s.

Module fmt.

(** [fmt.Sprintf] on a format whose only verb is [%s], with string
    arguments, one for each verb: plain text is copied and each [%s] is
    replaced by the next argument.  [None] outside this fragment: another
    verb, a missing argument, or arguments left over. *)
Fixpoint Sprintf (format : string) (args : list string) : option string :=
  match format with
  | EmptyString =>
      match args with
      | [] => Some EmptyString
      | _ :: _ => None
      end
  | String c rest =>
      if Ascii.eqb c "%" then
        match rest with
        | String v rest' =>
            if Ascii.eqb v "s" then
              match args with
              | a :: args' =>
                  match Sprintf rest' args' with
                  | Some out => Some (a +:+ out)
                  | None => None
                  end
              | [] => None
              end
            else None
        | EmptyString => None
        end
      else
        match Sprintf rest args with
        | Some out => Some (String c out)
        | None => None
        end
  end.

(** A text without the verb marker. *)
Fixpoint plain (s : string) : bool :=
  match s with
  | EmptyString => true
  | String c s' => negb (Ascii.eqb c "%") && plain s'
  end.

End fmt.

(** [strings.Join(parts, sep)] with an empty separator. *)
Definition Join_empty (parts : list string) : string :=
  fold_right String.append EmptyString parts.

(** The loops [for i := 0; i < r+1; i++ { fparts[k] += tab }]. *)
Fixpoint add_tabs (n : nat) (k : nat) (fparts : list string) : list string :=
  match n with
  | O => fparts
  | S n' => add_tabs n' k (alter (fun part => part +:+ String "009"%char "") k fparts)
  end.

Section Range.

(** The loops over the fields of a value, for a given way [each] to format
    one field: in [formatEndpoint] a verb and an argument are added for every
    field, in [format] the formatted field is added to [f]. *)
Variable each : registry.Value -> option string.

Fixpoint range_endpoint (values : list registry.Value) (fparts vals : list string)
  : option (list string * list string) :=
  match values with
  | [] => Some (fparts, vals)
  | val :: values' =>
      match each val with
      | Some out => range_endpoint values' (fparts ++ ["%s"])%list (vals ++ [out])%list
      | None => None
      end
  end.

Fixpoint range_format (values : list registry.Value) (f : list string)
  : option (list string) :=
  match values with
  | [] => Some f
  | k :: values' =>
      match each k with
      | Some out => range_format values' (f ++ [out])%list
      | None => None
      end
  end.

End Range.

Section Format.

(** [snaker.CamelToSnake] *)
Variable CamelToSnake : string -> string.

(** [formatEndpoint]: the format is put together in [fparts], the arguments
    in [vals]; the fields of [v] are formatted one level deeper.  The depth
    [r] is an [int] in the code: the function is the code's as long as no
    [r+1] leaves the range of [int]. *)
Fixpoint formatEndpoint (v : registry.Value) (r : Z) {struct v} : option string :=
  match v with
  | registry.mkValue name type values =>
      let fparts := [""; "%s %s"; String "010"%char ""] in
      let fparts := add_tabs (Z.to_nat (r + 1)) 0 fparts in
      match values with
      | [] => fmt.Sprintf (Join_empty fparts) [CamelToSnake name; type]
      | _ :: _ =>
          let fparts := alter (fun part => part +:+ " {") 1%nat fparts in
          let vals := [CamelToSnake name; type] in
          match range_endpoint (fun val => formatEndpoint val (r + 1)%Z)
                               values fparts vals with
          | Some (fparts, vals) =>
              let l := (length fparts - 1)%nat in
              let fparts := add_tabs (Z.to_nat (r + 1)) l fparts in
              let fparts := (fparts ++ ["}" +:+ String "010"%char ""])%list in
              fmt.Sprintf (Join_empty fparts) vals
          | None => None
          end
      end
  end.

(** [format]: the fields of a value between braces, or [{}] for nil and for
    a value without fields. *)
Definition format (v : option registry.Value) : option string :=
  match v with
  | None => Some "{}"
  | Some v =>
      match registry.Values v with
      | [] => Some "{}"
      | values =>
          match range_format (fun k => formatEndpoint k 0) values [] with
          | Some f => fmt.Sprintf ("{" +:+ String "010"%char "%s}") [Join_empty f]
          | None => None
          end
      end
  end.

(** What the formatting comes to, written as a text layout: a field on a
    line of its own behind [r+1] tabs; the fields of a compound field
    between braces, one level deeper, the closing brace behind the same
    tabs. *)
Fixpoint tabs (n : nat) : string :=
  match n with
  | O => EmptyString
  | S n' => String "009"%char (tabs n')
  end.

Fixpoint layout (v : registry.Value) (r : Z) {struct v} : string :=
  match v with
  | registry.mkValue name type values =>
      let indent := tabs (Z.to_nat (r + 1)) in
      match values with
      | [] =>
          indent +:+ CamelToSnake name +:+ " " +:+ type +:+ String "010"%char ""
      | _ :: _ =>
          indent +:+ CamelToSnake name +:+ " " +:+ type +:+ " {"
          +:+ String "010"%char ""
          +:+ Join_empty (map (fun val => layout val (r + 1)%Z) values)
          +:+ indent +:+ "}" +:+ String "010"%char ""
      end
  end.

End Format.

(** ** The registry pages *)

(** [h.Get(key)]: the first value of the canonical key, or the empty
    string. *)
Definition Header_Get (h : http.Header) (key : string) : string :=
  match h !! http.CanonicalMIMEHeaderKey key with
  | Some (v :: _) => v
  | _ => EmptyString
  end.

(** What is handed to [json.Marshal] under the key [services]: the server
    itself, or a list of services. *)
Inductive Marshalled :=
| OfServer
| OfServices (services : list registry.Service).

(** What a registry handler answers: an [http.Error], a JSON body written
    after the content type is set, or a page: the call of [s.render] with a
    template and the data of the page, which [response_status] below carries
    out. *)
Inductive Answer :=
| AnswerError (msg : string) (code : Z)
| AnswerJSON (body : string)
| AnswerPage (tmpl : string) (data : Page).

Definition answer_status (a : Answer) : option Z :=
  match a with
  | AnswerError _ code => Some code
  | AnswerJSON _ => Some 200%Z
  | AnswerPage _ _ => None
  end.

Section Registry.

(** The registry of the server, with the endpoints of its services;
    [json.Marshal]; the order [sortedServices] puts the services in; the
    templates of the pages. *)
Variable registry_ListServices : list registry.Service * option error.
Variable registry_GetService : string -> list registry.Service * option error.
Variable json_Marshal : Marshalled -> string + error.
Variable sort_Sort : list registry.Service -> list registry.Service.
Variables serviceTemplate registryTemplate callTemplate : string.

Definition marshal_services (m : Marshalled) : Answer :=
  match json_Marshal m with
  | inr err => AnswerError ("Error occurred:" +:+ err) 500
  | inl b => AnswerJSON b
  end.

Definition wants_json (r : http.Request) : bool :=
  String.eqb (Header_Get (http.Header_ r) "Content-Type") "application/json".

(** [registryHandler], with the route variables [mux.Vars(r)]. *)
Definition registryHandler (vars : gmap string string) (r : http.Request) : Answer :=
  let svc := default "" (vars !! "name") in
  if negb (strings.is_empty svc) then
    let '(sv, err) := registry_GetService svc in
    match err with
    | Some err => AnswerError ("Error occurred:" +:+ err) 500
    | None =>
        if (length sv =? 0)%nat then AnswerError "Not found" 404
        else if wants_json r then marshal_services OfServer
        else AnswerPage serviceTemplate (ServicePage sv)
    end
  else
    let '(services, _) := registry_ListServices in
    let services := sort_Sort services in
    if wants_json r then marshal_services (OfServices services)
    else AnswerPage registryTemplate (RegistryPage services).

(** The body of the loop of [callHandler]: the endpoints of a service are
    its own, or else those of the first version the registry has of it. *)
Definition add_endpoints (serviceMap : gmap string (list registry.Endpoint))
           (service : registry.Service) : gmap string (list registry.Endpoint) :=
  if (0 <? length (registry.Endpoints service))%nat then
    <[registry.Name service := registry.Endpoints service]> serviceMap
  else
    match registry_GetService (registry.Name service) with
    | (_, Some _) => serviceMap
    | ([], None) => serviceMap
    | (s0 :: _, None) => <[registry.Name service := registry.Endpoints s0]> serviceMap
    end.

Definition callHandler (r : http.Request) : Answer :=
  let '(services, _) := registry_ListServices in
  let services := sort_Sort services in
  let serviceMap := fold_left add_endpoints services ∅ in
  if wants_json r then marshal_services (OfServices services)
  else AnswerPage callTemplate (CallPage serviceMap).

End Registry.

Section Responses.

Variable Template : Type.
Variable New : Template.
Variable Parse : Template -> string -> Template + error.
Variable ExecuteTemplate :
  Template -> string -> LayoutData -> list string * option error.
Variable layoutTemplate : string.
Variable Cookie : http.Request -> string -> option string.
Variable TokenCookieName : string.

(** The status of the response of a registry handler: the code of its
    [http.Error], 200 for a JSON body, and for a page the status [s.render]
    answers with, called with the template and the data of the page. *)
Definition response_status (g : Globals) (s : srv) (r : http.Request)
           (a : Answer) : Z :=
  match a with
  | AnswerError _ code => code
  | AnswerJSON _ => 200
  | AnswerPage tmpl data =>
      status (render Template New Parse ExecuteTemplate layoutTemplate Cookie
                     TokenCookieName g s r tmpl (PageResults data))
  end.

End Responses.


(** The number of levels of fields below a value. *)
Fixpoint height (v : registry.Value) : nat :=
  match v with
  | registry.mkValue _ _ values =>
      match values with
      | [] => 0
      | _ :: _ => S (list_max (map height values))
      end
  end.

(** The steps [srv.Init] and [srv.Start]. *)
Definition is_server_step (ev : Effect) : bool := negb (before_listening ev).

(** ** The command *)

Record Flag := mkFlag {
  flag_Name : string;
  flag_Usage : string;
  flag_EnvVars : list string;
}.

(** [cli.Command], with its name, usage, flags and subcommands. *)
#[warnings="-register-all"]
Inductive Command :=
| mkCommand (Name Usage : string) (Flags : list Flag) (Subcommands : list Command).

Definition command_Flags (c : Command) : list Flag :=
  match c with mkCommand _ _ flags _ => flags end.
Definition command_Subcommands (c : Command) : list Command :=
  match c with mkCommand _ _ _ subcommands => subcommands end.

(** What [Commands] asks of a plugin. *)
Record Plugin := mkPlugin {
  plugin_Commands : list Command;
  plugin_Flags : list Flag;
}.

Definition web_flags : list Flag := [
  mkFlag "address" "Set the web UI address e.g 0.0.0.0:8082" ["MICRO_WEB_ADDRESS"];
  mkFlag "namespace" "Set the namespace used by the Web proxy e.g. com.example.web"
         ["MICRO_WEB_NAMESPACE"];
  mkFlag "resolver" "Set the resolver to route to services e.g path, domain"
         ["MICRO_WEB_RESOLVER"];
  mkFlag "auth_login_url" "The relative URL where a user can login"
         ["MICRO_AUTH_LOGIN_URL"]
].

(** The body of the loop of [Commands] for one plugin. *)
Definition add_plugin (command : Command) (p : Plugin) : Command :=
  match command with
  | mkCommand name usage flags subcommands =>
      let subcommands :=
        if (0 <? length (plugin_Commands p))%nat
        then (subcommands ++ plugin_Commands p)%list else subcommands in
      let flags :=
        if (0 <? length (plugin_Flags p))%nat
        then (flags ++ plugin_Flags p)%list else flags in
      mkCommand name usage flags subcommands
  end.

(** [Commands], for the plugins [Plugins()] returns.  The action of the
    command, which calls [Run], is not part of the record. *)
Definition Commands (plugins : list Plugin) : list Command :=
  let command := mkCommand "web" "Run the web dashboard" web_flags [] in
  [fold_left add_plugin plugins command].

(** ** The variables after [Run] *)

(** A flag that overrides a variable when it is not empty. *)
Definition flag_or (e : Env) (name : string) (current : string) : string :=
  let v := cli.String (flags e) name in
  if strings.is_empty v then current else v.

(** The package variables once [Run] has started the server, variable by
    variable, for the flags of [e] and the variables [g] it found. *)
Definition variables_after (e : Env) (g : Globals) : Globals := {|
  Name := flag_or e "server_name" (Name g);
  Address := flag_or e "address" (Address g);
  Namespace :=
    (let ns := cli.String (flags e) "namespace" in
     if strings.is_empty ns then Namespace g
     else strings.TrimSuffix ns ("." +:+ flag_or e "type" (Type_ g)));
  Type_ := flag_or e "type" (Type_ g);
  Resolver := flag_or e "resolver" (Resolver g);
  BasePathHeader := BasePathHeader g;
  statsURL := if cli.Bool (flags e) "enable_stats" then "/stats" else statsURL g;
  loginURL := flag_or e "auth_login_url" (loginURL g);
  ACMEProvider := flag_or e "acme_provider" (ACMEProvider g);
  ACMEChallengeProvider := ACMEChallengeProvider g;
  ACMECA := ACMECA g;
|}.

(** The steps that have to do with the DNS challenge. *)
Definition is_dns_step (ev : Effect) : bool :=
  match ev with
  | Getenv _ | CallNewDNSProvider _ => true
  | _ => false
  end.

(** The variables after the first part of [Run]. *)
Definition configured (e : Env) (g : Globals) : Globals :=
  mkGlobals
    (flag_or e "server_name" (Name g))
    (flag_or e "address" (Address g))
    (let ns := cli.String (flags e) "namespace" in
     if strings.is_empty ns then Namespace g
     else strings.TrimSuffix ns ("." +:+ flag_or e "type" (Type_ g)))
    (flag_or e "type" (Type_ g))
    (flag_or e "resolver" (Resolver g))
    (BasePathHeader g) (statsURL g) (loginURL g) (ACMEProvider g)
    (ACMEChallengeProvider g) (ACMECA g).

(** The resolver [Run] builds from the variables. *)
Definition resolver_for (g : Globals) : ResolverKind :=
  let rr := WebResolver (Namespace g +:+ "." +:+ Type_ g) in
  if String.eqb (Resolver g) "subdomain" then SubdomainResolver rr else rr.

(** The route table [Run] builds. *)
Definition table_for (e : Env) : list mux.Route :=
  ((if cli.Bool (flags e) "enable_stats"
    then [mux.HandleFunc "/stats" None mux.HStats] else []) ++ routes)%list.

(** The login title and the user [render] shows: those of the account of
    the token cookie, when there is one and the auth service knows it. *)
Definition session (Cookie : http.Request -> string -> option string)
           (TokenCookieName : string) (s : srv) (r : http.Request)
  : string * string :=
  match Cookie r TokenCookieName with
  | Some value =>
      match Inspect s (strings.TrimPrefix value (TokenCookieName +:+ "=")) with
      | inl acc => ("Account", ID acc)
      | inr _ => ("Login", "")
      end
  | None => ("Login", "")
  end.

(** A listed service that brings endpoints into the map of [callHandler]
    under [name]: it has endpoints of its own, or the registry has a version
    of it. *)
Definition brings_endpoints
           (GetService : string -> list registry.Service * option error)
           (name : string) (service : registry.Service) : Prop :=
  registry.Name service = name
  /\ (registry.Endpoints service <> []
      \/ exists s0 rest, GetService name = (s0 :: rest, None)).

(** Sample data for the registry pages. *)
Module SampleRegistry.

Definition chat : registry.Service :=
  registry.mkService "go.micro.web.chat" "latest"
    [registry.mkEndpoint "Chat.Send" None None].

Definition mail : registry.Service :=
  registry.mkService "go.micro.web.mail" "latest" [].

Definition GetService (name : string) : list registry.Service * option error :=
  if String.eqb name "go.micro.web.chat" then ([chat], None)
  else ([], Some "service not found").

Definition Marshal (m : Marshalled) : string + error :=
  match m with
  | OfServer => inl "{}"
  | OfServices services => inl "[]"
  end.

Definition json_request : http.Request :=
  http.mkRequest "GET" (url.mkURL "" "" None "" "/client" "" false "" "")
                 {[ "Content-Type" := ["application/json"] ]} "" "edge.example.com" [].

End SampleRegistry.

(** * Properties *)

(** ** Requests *)

Lemma ServeHTTP_unfold g s r :
  ServeHTTP g s r =
  let r0 := with_defaults r in
  match context.asEndpoint (context.Value (http.ctx r0) context.EndpointKey) with
  | Some _ => mkResult [CallProxy r0] r0 (proxy_ServeHTTP (srv_proxy g) r0)
  | None =>
      let '(r1, (endpoint, err)) := Resolve s r0 in
      match err with
      | Some _ =>
          mkResult [CallResolve r0; CallRouter r1] r1 (Router_ServeHTTP g s r1)
      | None =>
          let r2 := http.Clone r1
                      (context.WithValue (http.ctx r1) context.EndpointKey
                                         (context.EndpointPtr endpoint)) in
          mkResult [CallResolve r0; CallProxy r2] r2
                   (proxy_ServeHTTP (srv_proxy g) r2)
      end
  end.
Proof.
  unfold ServeHTTP, with_defaults.
  destruct r as [m [sc op us ho pa rp fq rq fr] h b host c]; simpl.
  destruct ho as [|c1 ho], sc as [|c2 sc]; reflexivity.
Qed.

Lemma canonical_BasePathHeader :
  http.CanonicalMIMEHeaderKey (BasePathHeader initial) = "X-Micro-Web-Base-Path".
Proof. reflexivity. Qed.

Lemma director_endpoint g r e :
  context.Value (http.ctx r) context.EndpointKey
    = Some (context.EndpointPtr (Some e)) ->
  director g r
    = Done (proxied_to (http.CanonicalMIMEHeaderKey (BasePathHeader g)) e r).
Proof.
  intros H. unfold director. rewrite H. simpl.
  destruct r as [m [sc op us ho pa rp fq rq fr] h b host c]. reflexivity.
Qed.

Lemma director_no_endpoint g r :
  context.asEndpoint (context.Value (http.ctx r) context.EndpointKey) = None ->
  director g r = Done (with_path "/not-found" r).
Proof.
  intros H. unfold director. rewrite H.
  destruct r as [m [sc op us ho pa rp fq rq fr] h b host c]. reflexivity.
Qed.

(** C10: before it looks for an endpoint or resolves, [srv.ServeHTTP] sets
    the defaults on the request, in place: the URL's host becomes the
    request's [Host] when it was empty and its scheme becomes [http] when it
    was empty; every other field of the request and of its URL is as it was.
    Everything [srv.ServeHTTP] does next it does with that request [r0]: the
    endpoint check, the one call of the proxy or of [Resolve], and what the
    caller's request is afterwards, which is [r0] itself when the proxy is
    called at once, and what [Resolve] made of [r0] otherwise (with the
    endpoint in its context after a successful resolution). *)
Theorem ServeHTTP_sets_defaults g s r :
  exists r0,
    url.Host (http.URL r0)
    = (if strings.is_empty (url.Host (http.URL r)) then http.Host r
       else url.Host (http.URL r))
    /\ url.Scheme (http.URL r0)
       = (if strings.is_empty (url.Scheme (http.URL r)) then "http"
          else url.Scheme (http.URL r))
    /\ (url.Opaque (http.URL r0), url.User (http.URL r0), url.Path (http.URL r0),
        url.RawPath (http.URL r0), url.ForceQuery (http.URL r0),
        url.RawQuery (http.URL r0), url.Fragment (http.URL r0))
       = (url.Opaque (http.URL r), url.User (http.URL r), url.Path (http.URL r),
          url.RawPath (http.URL r), url.ForceQuery (http.URL r),
          url.RawQuery (http.URL r), url.Fragment (http.URL r))
    /\ (http.Method r0, http.Header_ r0, http.Body r0, http.Host r0, http.ctx r0)
       = (http.Method r, http.Header_ r, http.Body r, http.Host r, http.ctx r)
    /\ ServeHTTP g s r
       = match context.asEndpoint (context.Value (http.ctx r0) context.EndpointKey) with
         | Some _ => mkResult [CallProxy r0] r0 (proxy_ServeHTTP (srv_proxy g) r0)
         | None =>
             let '(r1, (endpoint, err)) := Resolve s r0 in
             match err with
             | Some _ =>
                 mkResult [CallResolve r0; CallRouter r1] r1 (Router_ServeHTTP g s r1)
             | None =>
                 let r2 := http.mkRequest (http.Method r1) (http.URL r1)
                             (http.Header_ r1) (http.Body r1) (http.Host r1)
                             ((context.EndpointKey, context.EndpointPtr endpoint)
                                :: http.ctx r1) in
                 mkResult [CallResolve r0; CallProxy r2] r2
                          (proxy_ServeHTTP (srv_proxy g) r2)
             end
         end
    /\ (fst (Resolve s r0) = r0 ->
          (http.Method (request (ServeHTTP g s r)),
           http.URL (request (ServeHTTP g s r)),
           http.Header_ (request (ServeHTTP g s r)),
           http.Body (request (ServeHTTP g s r)),
           http.Host (request (ServeHTTP g s r)))
          = (http.Method r0, http.URL r0, http.Header_ r0, http.Body r0,
             http.Host r0)).
Proof.
  exists (with_defaults r). do 4 (split; [reflexivity|]).
  rewrite ServeHTTP_unfold. cbn zeta. split.
  - destruct (context.asEndpoint _) as [p|]; [reflexivity|].
    destruct (Resolve s (with_defaults r)) as [r1 [ep [err|]]]; [reflexivity|].
    destruct r1; reflexivity.
  - destruct (context.asEndpoint _) as [p|]; [reflexivity|].
    destruct (Resolve s (with_defaults r)) as [r1 [ep [err|]]]; cbn [fst];
      intros ->; reflexivity.
Qed.

(** C1: when the context of the inbound request already holds an endpoint,
    [srv.ServeHTTP] hands the request to the proxy and does not call
    [Resolve] (whatever the resolver is, the outcome is the same), and the
    director rewrites the outbound request with exactly that endpoint. *)
Theorem ServeHTTP_reuses_endpoint g s r e :
  context.Value (http.ctx r) context.EndpointKey
    = Some (context.EndpointPtr (Some e)) ->
  let out := ServeHTTP g s r in
  calls out = [CallProxy (with_defaults r)]
  /\ filter is_CallResolve (calls out) = []
  /\ served out
     = Proxied (proxied_to (http.CanonicalMIMEHeaderKey (BasePathHeader g)) e
                           (with_defaults r))
  /\ forall s', ServeHTTP g s' r = out.
Proof.
  intros H out.
  assert (Hout : forall s', ServeHTTP g s' r
            = mkResult [CallProxy (with_defaults r)] (with_defaults r)
                (Proxied (proxied_to (http.CanonicalMIMEHeaderKey (BasePathHeader g))
                                     e (with_defaults r)))).
  { intros s'. rewrite ServeHTTP_unfold. cbn zeta.
    change (http.ctx (with_defaults r)) with (http.ctx r). rewrite H. simpl.
    unfold proxy_ServeHTTP, srv_proxy. simpl.
    rewrite (director_endpoint g (with_defaults r) e) by exact H. reflexivity. }
  subst out. rewrite (Hout s). simpl. repeat split. intros s'. apply Hout.
Qed.

Lemma ServeHTTP_reuses_endpoint_witness :
  context.Value (http.ctx Sample.checked) context.EndpointKey
    = Some (context.EndpointPtr (Some Sample.chat))
  /\ served (ServeHTTP initial Sample.s Sample.checked)
     = Proxied (http.mkRequest "GET"
                  (url.mkURL "http" "" None "10.0.0.7:8080" "/messages" ""
                             false "page=2" "")
                  {[ "X-Micro-Web-Base-Path" := ["/chat"] ]} ""
                  "10.0.0.7:8080" (http.ctx Sample.checked)).
Proof.
  split; [reflexivity|].
  exact (proj1 (proj2 (proj2
    (ServeHTTP_reuses_endpoint initial Sample.s Sample.checked Sample.chat
                               eq_refl)))).
Defined.

(** C2: for a request whose context carries the endpoint [e], the director
    sets the base-path header [X-Micro-Web-Base-Path] to the name of [e]
    after a slash, the host of the URL and the [Host] of the request to the
    host of [e], the path of the URL to the path of [e] and its scheme to
    [http] whatever it was; it changes no other field of the URL. *)
Theorem director_rewrites_to_endpoint g r e :
  BasePathHeader g = BasePathHeader initial ->
  context.Value (http.ctx r) context.EndpointKey
    = Some (context.EndpointPtr (Some e)) ->
  exists out,
    director g r = Done out
    /\ http.Header_ out
       = <["X-Micro-Web-Base-Path" := ["/" +:+ res.Name e]]> (http.Header_ r)
    /\ http.Header_ out !! "X-Micro-Web-Base-Path" = Some ["/" +:+ res.Name e]
    /\ url.Host (http.URL out) = res.Host e
    /\ http.Host out = res.Host e
    /\ url.Path (http.URL out) = res.Path e
    /\ url.Scheme (http.URL out) = "http"
    /\ (url.Opaque (http.URL out), url.User (http.URL out),
        url.RawPath (http.URL out), url.ForceQuery (http.URL out),
        url.RawQuery (http.URL out), url.Fragment (http.URL out))
       = (url.Opaque (http.URL r), url.User (http.URL r),
          url.RawPath (http.URL r), url.ForceQuery (http.URL r),
          url.RawQuery (http.URL r), url.Fragment (http.URL r)).
Proof.
  intros Hg H. eexists. split; [apply director_endpoint, H|].
  rewrite Hg, canonical_BasePathHeader. simpl.
  repeat split. apply lookup_insert_eq.
Qed.

Lemma director_rewrites_to_endpoint_witness :
  exists out,
    director initial Sample.checked = Done out
    /\ http.Header_ out !! "X-Micro-Web-Base-Path" = Some ["/chat"]
    /\ url.Host (http.URL out) = "10.0.0.7:8080"
    /\ url.Path (http.URL out) = "/messages".
Proof.
  destruct (director_rewrites_to_endpoint initial Sample.checked Sample.chat
              eq_refl eq_refl) as (out & Hd & _ & Hh & Hhost & _ & Hp & _).
  exists out. repeat split; assumption.
Defined.

(** C3: when the context of the request holds no endpoint, [srv.ServeHTTP]
    calls [Resolve] exactly once, on the request with its defaults.  If
    [Resolve] returns an error the request goes to the mux router just as
    [Resolve] left it (so with the inbound context, when [Resolve] leaves the
    request alone); otherwise the endpoint returned is stored in the context
    of the request, and that request is handed to the proxy. *)
Theorem ServeHTTP_resolves_once g s r :
  context.asEndpoint (context.Value (http.ctx r) context.EndpointKey) = None ->
  let r0 := with_defaults r in
  let out := ServeHTTP g s r in
  filter is_CallResolve (calls out) = [CallResolve r0]
  /\ match Resolve s r0 with
     | (r1, (_, Some _)) =>
         calls out = [CallResolve r0; CallRouter r1]
         /\ request out = r1
         /\ served out = Router_ServeHTTP g s r1
         /\ (r1 = r0 -> http.ctx (request out) = http.ctx r)
     | (r1, (endpoint, None)) =>
         let r2 := http.mkRequest (http.Method r1) (http.URL r1) (http.Header_ r1)
                     (http.Body r1) (http.Host r1)
                     ((context.EndpointKey, context.EndpointPtr endpoint)
                        :: http.ctx r1) in
         calls out = [CallResolve r0; CallProxy r2]
         /\ request out = r2
         /\ context.Value (http.ctx r2) context.EndpointKey
            = Some (context.EndpointPtr endpoint)
         /\ served out = proxy_ServeHTTP (srv_proxy g) r2
         /\ forall e, endpoint = Some e ->
              served out
              = Proxied (proxied_to (http.CanonicalMIMEHeaderKey (BasePathHeader g))
                                    e r2)
     end.
Proof.
  intros H r0 out. subst out. rewrite ServeHTTP_unfold. cbn zeta. fold r0.
  change (http.ctx r0) with (http.ctx r). rewrite H.
  destruct (Resolve s r0) as [r1 [ep [err|]]]; simpl.
  - repeat split. intros ->. reflexivity.
  - repeat split. intros e ->. unfold proxy_ServeHTTP, srv_proxy.
    cbn [Director]. erewrite director_endpoint by reflexivity.
    destruct r1; reflexivity.
Qed.

Lemma ServeHTTP_resolves_once_witness :
  calls (ServeHTTP initial Sample.s (Sample.get "/chat/messages" []))
    = [CallResolve (with_defaults (Sample.get "/chat/messages" []));
       CallProxy (with_defaults
                    (Sample.get "/chat/messages"
                       [(context.EndpointKey,
                         context.EndpointPtr (Some Sample.chat))]))]
  /\ calls (ServeHTTP initial Sample.s (Sample.get "/services" []))
    = [CallResolve (with_defaults (Sample.get "/services" []));
       CallRouter (with_defaults (Sample.get "/services" []))].
Proof.
  split.
  - exact (proj1 (proj2
      (ServeHTTP_resolves_once initial Sample.s (Sample.get "/chat/messages" [])
                               eq_refl))).
  - exact (proj1 (proj2
      (ServeHTTP_resolves_once initial Sample.s (Sample.get "/services" [])
                               eq_refl))).
Defined.

(** ** The not-found page *)

Lemma status_writes (written : list string) : status (map Write written) = 200%Z.
Proof. destruct written; reflexivity. Qed.

(** A request with the path of the not-found page goes to the not-found
    handler, whatever else it holds. *)
Lemma not_found_path_route table r :
  registered table ->
  url.Path (http.URL r) = "/not-found" ->
  mux.ServeHTTP table r = mux.Handle mux.HNotFound.
Proof.
  intros Hreg Hp. unfold mux.ServeHTTP. rewrite Hp.
  destruct Hreg as [-> | ->]; reflexivity.
Qed.

(** When [Resolve] fails, the router serves the request as [Resolve] left
    it. *)
Lemma unresolved_to_router g s r r1 ep err :
  context.asEndpoint (context.Value (http.ctx r) context.EndpointKey) = None ->
  Resolve s (with_defaults r) = (r1, (ep, Some err)) ->
  served (ServeHTTP g s r) = Router_ServeHTTP g s r1.
Proof.
  intros H Hres. rewrite ServeHTTP_unfold. cbn zeta.
  change (http.ctx (with_defaults r)) with (http.ctx r).
  rewrite H, Hres. reflexivity.
Qed.

Lemma find_no_match {A} (f : A -> bool) (l : list A) :
  (forall x, In x l -> f x = false) -> find f l = None.
Proof.
  induction l as [|x l IH]; intros H; [reflexivity|].
  cbn [find]. rewrite (H x (or_introl eq_refl)).
  apply IH. intros y Hy. apply H. right. exact Hy.
Qed.

Section Rendering.

Variable Template : Type.
Variable New : Template.
Variable Parse : Template -> string -> Template + error.
Variable ExecuteTemplate :
  Template -> string -> LayoutData -> list string * option error.
Variables layoutTemplate notFoundTemplate indexTemplate : string.
Variable Cookie : http.Request -> string -> option string.
Variable TokenCookieName : string.
Variable EffectiveTLDPlusOne : string -> string.
Variable Hostname : url.URL -> string.
Variable sort_by_Name : list webService -> list webService.

Local Abbreviation render' :=
  (render Template New Parse ExecuteTemplate layoutTemplate Cookie TokenCookieName).
Local Abbreviation notFoundHandler' :=
  (notFoundHandler Template New Parse ExecuteTemplate layoutTemplate
                   notFoundTemplate Cookie TokenCookieName).
Local Abbreviation dashboard_response' :=
  (dashboard_response Template New Parse ExecuteTemplate layoutTemplate
                      notFoundTemplate indexTemplate Cookie TokenCookieName
                      EffectiveTLDPlusOne Hostname sort_by_Name).
Local Abbreviation session' := (session Cookie TokenCookieName).

(** [render] answers 200 or 500. *)
Lemma render_status g s r tmpl data :
  status (render' g s r tmpl data) = 200%Z
  \/ status (render' g s r tmpl data) = 500%Z.
Proof.
  unfold render.
  destruct (Parse New layoutTemplate) as [t|err]; [|right; reflexivity].
  destruct (Parse t tmpl) as [t'|err]; [|right; reflexivity].
  destruct (match Cookie r TokenCookieName with Some _ => _ | None => _ end)
    as [loginTitle user].
  destruct (ExecuteTemplate _ _ _) as [written [err|]].
  - destruct written; [right|left]; reflexivity.
  - left. apply status_writes.
Qed.

(** What [render] writes, for the data it executes the layout with: an
    error 500 when a template does not parse; else what the execution
    writes, followed by an error 500 when the execution fails. *)
Lemma render_writes g s r tmpl data :
  let d := mkLayoutData (fst (session' s r)) (loginURL g) (statsURL g) data
                        (snd (session' s r)) in
  render' g s r tmpl data
  = match Parse New layoutTemplate with
    | inr err => [Error ("Error occurred:" +:+ err) 500]
    | inl t =>
        match Parse t tmpl with
        | inr err => [Error ("Error occurred:" +:+ err) 500]
        | inl t' =>
            match ExecuteTemplate t' "layout" d with
            | (written, Some err) =>
                (map Write written ++ [Error ("Error occurred:" +:+ err) 500])%list
            | (written, None) => map Write written
            end
        end
    end.
Proof.
  intros d. subst d. unfold render, session.
  destruct (Parse New layoutTemplate) as [t|err]; [|reflexivity].
  destruct (Parse t tmpl) as [t'|err]; [|reflexivity].
  destruct (match Cookie r TokenCookieName with Some _ => _ | None => _ end)
    as [loginTitle user]. cbn [fst snd].
  destruct (ExecuteTemplate t' "layout" _) as [written [err|]]; reflexivity.
Qed.

(** The status of what [render] writes is 500 exactly when a template does
    not parse or the execution fails before it writes, and 200 otherwise. *)
Lemma render_status_500 g s r tmpl data :
  let d := mkLayoutData (fst (session' s r)) (loginURL g) (statsURL g) data
                        (snd (session' s r)) in
  (status (render' g s r tmpl data) = 500%Z
   <-> (exists err, Parse New layoutTemplate = inr err)
       \/ (exists t err, Parse New layoutTemplate = inl t /\ Parse t tmpl = inr err)
       \/ (exists t t' err,
             Parse New layoutTemplate = inl t /\ Parse t tmpl = inl t'
             /\ ExecuteTemplate t' "layout" d = ([], Some err)))
  /\ (status (render' g s r tmpl data) <> 500%Z ->
        status (render' g s r tmpl data) = 200%Z).
Proof.
  intros d. rewrite render_writes. fold d.
  destruct (Parse New layoutTemplate) as [t|err] eqn:El.
  2:{ split; [|intros H; contradiction H; reflexivity].
      split; [intros _; left; eexists; reflexivity | reflexivity]. }
  destruct (Parse t tmpl) as [t'|err] eqn:Et.
  2:{ split; [|intros H; contradiction H; reflexivity].
      split; [|reflexivity]. intros _. right. left. exists t, err.
      split; [reflexivity | exact Et]. }
  destruct (ExecuteTemplate t' "layout" d) as [written [err|]] eqn:E.
  - destruct written as [|b written].
    + split; [|intros H; contradiction H; reflexivity].
      split; [|reflexivity]. intros _. right. right.
      exists t, t', err. split; [reflexivity|]. split; [exact Et | exact E].
    + split; [|reflexivity]. split; [discriminate|].
      intros [(e' & [=]) | [(t0 & e' & [= <-] & H) | (t0 & t1 & e' & [= <-] & H & H')]];
        congruence.
  - split; [|intros _; apply status_writes]. rewrite status_writes.
    split; [discriminate|].
    intros [(e' & [=]) | [(t0 & e' & [= <-] & H) | (t0 & t1 & e' & [= <-] & H & H')]];
      congruence.
Qed.

(** C4, amended: when a request reaches the proxy director and its context
    holds no endpoint, the director sets the path of the URL to [/not-found]
    and changes nothing else, neither header nor host nor scheme, and the
    proxy forwards that request; the route table of [Run] sends a request
    with that path to the not-found handler.  The forwarded request comes in
    as a request [r'] with that path; when it comes to [srv.ServeHTTP] of a
    server with the route table of [Run], with no endpoint in its context,
    and [Resolve] fails on it as well and leaves its path, the router hands
    it to [notFoundHandler], which renders the not-found template without data:
    the response is an error 500 when the layout or the not-found template
    does not parse; else it is what the execution of the layout writes,
    followed by an error 500 when the execution fails.  So the status is 500
    exactly when a template does not parse or the execution fails before it
    writes, and 200 otherwise. *)
Theorem director_without_endpoint g r :
  context.asEndpoint (context.Value (http.ctx r) context.EndpointKey) = None ->
  director g r = Done (with_path "/not-found" r)
  /\ proxy_ServeHTTP (srv_proxy g) r = Proxied (with_path "/not-found" r)
  /\ (http.Method (with_path "/not-found" r), http.Header_ (with_path "/not-found" r),
      http.Host (with_path "/not-found" r), http.ctx (with_path "/not-found" r),
      url.Host (http.URL (with_path "/not-found" r)),
      url.Scheme (http.URL (with_path "/not-found" r)))
     = (http.Method r, http.Header_ r, http.Host r, http.ctx r,
        url.Host (http.URL r), url.Scheme (http.URL r))
  /\ (forall table, registered table ->
        mux.ServeHTTP table (with_path "/not-found" r) = mux.Handle mux.HNotFound)
  /\ forall s r' r1 ep err,
       registered (Router s) ->
       url.Path (http.URL r') = url.Path (http.URL (with_path "/not-found" r)) ->
       context.asEndpoint (context.Value (http.ctx r') context.EndpointKey) = None ->
       Resolve s (with_defaults r') = (r1, (ep, Some err)) ->
       url.Path (http.URL r1) = url.Path (http.URL r') ->
       let page := notFoundHandler' g s r1 in
       let d := mkLayoutData (fst (session' s r1)) (loginURL g) (statsURL g)
                             NilResults (snd (session' s r1)) in
       served (ServeHTTP g s r') = Dashboard mux.HNotFound r1
       /\ dashboard_response' g s mux.HNotFound r1 = Some page
       /\ page
          = match Parse New layoutTemplate with
            | inr err => [Error ("Error occurred:" +:+ err) 500]
            | inl t =>
                match Parse t notFoundTemplate with
                | inr err => [Error ("Error occurred:" +:+ err) 500]
                | inl t' =>
                    match ExecuteTemplate t' "layout" d with
                    | (written, Some err) =>
                        (map Write written
                           ++ [Error ("Error occurred:" +:+ err) 500])%list
                    | (written, None) => map Write written
                    end
                end
            end
       /\ (status page = 500%Z
           <-> (exists err, Parse New layoutTemplate = inr err)
               \/ (exists t err, Parse New layoutTemplate = inl t
                                 /\ Parse t notFoundTemplate = inr err)
               \/ (exists t t' err,
                     Parse New layoutTemplate = inl t
                     /\ Parse t notFoundTemplate = inl t'
                     /\ ExecuteTemplate t' "layout" d = ([], Some err)))
       /\ (status page <> 500%Z -> status page = 200%Z).
Proof.
  intros H. pose proof (director_no_endpoint g r H) as Hd.
  split; [exact Hd|]. split.
  { unfold proxy_ServeHTTP, srv_proxy. simpl. rewrite Hd. reflexivity. }
  split; [reflexivity|].
  split; [intros table Hreg; apply not_found_path_route; [exact Hreg | reflexivity]|].
  intros s r' r1 ep err Hreg Hp' H' Hres Hp1 page d.
  rewrite (unresolved_to_router g s r' r1 ep err H' Hres).
  unfold Router_ServeHTTP.
  rewrite (not_found_path_route (Router s) r1 Hreg)
    by (rewrite Hp1, Hp'; reflexivity).
  split; [reflexivity|]. split; [reflexivity|].
  split; [apply render_writes|].
  apply (render_status_500 g s r1 notFoundTemplate NilResults).
Qed.

(** C5, amended: a request on which [Resolve] fails, with no endpoint in its
    context, is served as the route table of [Run] decides.  The router
    itself answers with a redirect 301 to the clean form of the path when the
    path is not in clean form, and with its own 404 when the path is clean
    and no route matches it.  A request with the path [/not-found] goes to
    [notFoundHandler], which renders the not-found template without data:
    the response is an error 500 when the layout or the not-found template
    does not parse; else it is what the execution of the layout writes,
    followed by an error 500 when the execution fails; so the status is 500
    exactly when a template does not parse or the execution fails before it
    writes, and 200 otherwise.  A request the table hands to the catch-all
    route goes to the proxy, whose director rewrites its path to
    [/not-found] before it is forwarded; a request the table hands to
    another handler of the dashboard is served by that handler. *)
Theorem unresolved_request_not_found g s r r1 ep err :
  registered (Router s) ->
  context.asEndpoint (context.Value (http.ctx r) context.EndpointKey) = None ->
  Resolve s (with_defaults r) = (r1, (ep, Some err)) ->
  context.asEndpoint (context.Value (http.ctx r1) context.EndpointKey) = None ->
  let path := url.Path (http.URL r1) in
  let page := notFoundHandler' g s r1 in
  let d := mkLayoutData (fst (session' s r1)) (loginURL g) (statsURL g)
                        NilResults (snd (session' s r1)) in
  (mux.cleanPath path <> path ->
     served (ServeHTTP g s r)
     = MuxRedirect 301 (url.set_Path (mux.cleanPath path) (http.URL r1)))
  /\ (mux.cleanPath path = path ->
      (forall rt, In rt (Router s) -> mux.Match rt path = false) ->
      served (ServeHTTP g s r) = MuxNotFound)
  /\ (path = "/not-found" ->
        served (ServeHTTP g s r) = Dashboard mux.HNotFound r1
        /\ dashboard_response' g s mux.HNotFound r1 = Some page
        /\ page
           = match Parse New layoutTemplate with
             | inr err => [Error ("Error occurred:" +:+ err) 500]
             | inl t =>
                 match Parse t notFoundTemplate with
                 | inr err => [Error ("Error occurred:" +:+ err) 500]
                 | inl t' =>
                     match ExecuteTemplate t' "layout" d with
                     | (written, Some err) =>
                         (map Write written
                            ++ [Error ("Error occurred:" +:+ err) 500])%list
                     | (written, None) => map Write written
                     end
                 end
             end
        /\ (status page = 500%Z
            <-> (exists err, Parse New layoutTemplate = inr err)
                \/ (exists t err, Parse New layoutTemplate = inl t
                                  /\ Parse t notFoundTemplate = inr err)
                \/ (exists t t' err,
                      Parse New layoutTemplate = inl t
                      /\ Parse t notFoundTemplate = inl t'
                      /\ ExecuteTemplate t' "layout" d = ([], Some err)))
        /\ (status page <> 500%Z -> status page = 200%Z))
  /\ (mux.ServeHTTP (Router s) r1 = mux.Handle mux.HProxy ->
        served (ServeHTTP g s r) = Proxied (with_path "/not-found" r1))
  /\ (forall h, mux.ServeHTTP (Router s) r1 = mux.Handle h -> h <> mux.HProxy ->
        served (ServeHTTP g s r) = Dashboard h r1).
Proof.
  intros Hreg H Hres H1 path page d.
  rewrite (unresolved_to_router g s r r1 ep err H Hres).
  unfold Router_ServeHTTP. repeat apply conj.
  - intros Hc. unfold mux.ServeHTTP. fold path.
    destruct (String.eqb_spec (mux.cleanPath path) path) as [E|_];
      [contradiction | reflexivity].
  - intros Hc Hno. unfold mux.ServeHTTP. fold path.
    rewrite Hc, String.eqb_refl. cbn [negb].
    rewrite (find_no_match _ _ Hno). reflexivity.
  - intros Hp.
    rewrite (not_found_path_route (Router s) r1 Hreg Hp).
    split; [reflexivity|]. split; [reflexivity|].
    split; [apply render_writes|].
    apply (render_status_500 g s r1 notFoundTemplate NilResults).
  - intros Hm. rewrite Hm. unfold proxy_ServeHTTP, srv_proxy. cbn [Director].
    rewrite (director_no_endpoint g r1 H1). reflexivity.
  - intros h Hm Hh. rewrite Hm. destruct h; try reflexivity. contradiction.
Qed.

End Rendering.

Lemma director_without_endpoint_witness :
  director initial (Sample.get "/unknown/page" [])
  = Done (http.mkRequest "GET"
            (url.mkURL "" "" None "" "/not-found" "" false "page=2" "")
            ∅ "" "edge.example.com" [])
  /\ served (ServeHTTP initial Sample.s (Sample.get "/not-found" []))
     = Dashboard mux.HNotFound (with_defaults (Sample.get "/not-found" []))
  /\ notFoundHandler (list string) [] Sample.Parse Sample.ExecuteTemplate
                     "layout" "not found" (fun _ _ => None) "micro-token"
                     initial Sample.s (with_defaults (Sample.get "/not-found" []))
     = [Write "layout"; Write "not found"].
Proof.
  pose proof (director_without_endpoint (list string) [] Sample.Parse
                Sample.ExecuteTemplate "layout" "not found" "index"
                (fun _ _ => None) "micro-token" (fun h => h) url.Host (fun l => l)
                initial (Sample.get "/unknown/page" []) eq_refl)
    as (Hd & _ & _ & _ & Hback).
  split; [exact Hd|].
  destruct (Hback Sample.s (Sample.get "/not-found" []) _ None "not found"
                  (or_introl eq_refl) eq_refl eq_refl eq_refl eq_refl)
    as (Hs & _ & Hpage & _).
  split; [exact Hs | exact Hpage].
Defined.

(** C4 as stated fails: with a web service named [not-found] in the
    registry, the request the director has sent to [/not-found] is resolved
    when it comes back to [srv.ServeHTTP], and proxied to that service; the
    not-found handler is not reached. *)
Lemma forwarded_not_found_may_resolve :
  ~ (forall g s r r',
       registered (Router s) ->
       context.asEndpoint (context.Value (http.ctx r) context.EndpointKey) = None ->
       director g r = Done r' ->
       exists r1, served (ServeHTTP g s r') = Dashboard mux.HNotFound r1).
Proof.
  intros H.
  destruct (H initial SamplePage.s (with_defaults (Sample.get "/unknown/page" [])) _
              (or_introl eq_refl) eq_refl eq_refl) as (r1 & H1).
  vm_compute in H1. discriminate H1.
Qed.

Lemma unresolved_request_not_found_witness :
  served (ServeHTTP initial Sample.s (Sample.get "/not-found" []))
    = Dashboard mux.HNotFound (with_defaults (Sample.get "/not-found" []))
  /\ served (ServeHTTP initial Sample.s (Sample.get "/unknown/page" []))
    = Proxied (with_path "/not-found" (with_defaults (Sample.get "/unknown/page" [])))
  /\ served (ServeHTTP initial Sample.s (Sample.get "//services" []))
    = MuxRedirect 301 (url.mkURL "http" "" None "edge.example.com" "/services"
                                 "" false "page=2" "")
  /\ served (ServeHTTP initial Sample.s (Sample.get "/-" [])) = MuxNotFound.
Proof.
  split; [|split; [|split]].
  - refine (proj1 (proj1 (proj2 (proj2
      (unresolved_request_not_found (list string) [] Sample.Parse
         Sample.ExecuteTemplate "layout" "not found" "index"
         (fun _ _ => None) "micro-token" (fun h => h) url.Host (fun l => l)
         initial Sample.s (Sample.get "/not-found" []) _ None "not found"
         (or_introl eq_refl) eq_refl eq_refl eq_refl))) eq_refl)).
  - refine (proj1 (proj2 (proj2 (proj2
      (unresolved_request_not_found (list string) [] Sample.Parse
         Sample.ExecuteTemplate "layout" "not found" "index"
         (fun _ _ => None) "micro-token" (fun h => h) url.Host (fun l => l)
         initial Sample.s (Sample.get "/unknown/page" []) _ None "not found"
         (or_introl eq_refl) eq_refl eq_refl eq_refl)))) eq_refl).
  - refine (proj1
      (unresolved_request_not_found (list string) [] Sample.Parse
         Sample.ExecuteTemplate "layout" "not found" "index"
         (fun _ _ => None) "micro-token" (fun h => h) url.Host (fun l => l)
         initial Sample.s (Sample.get "//services" []) _ None "not found"
         (or_introl eq_refl) eq_refl eq_refl eq_refl) _).
    vm_compute. discriminate.
  - refine (proj1 (proj2
      (unresolved_request_not_found (list string) [] Sample.Parse
         Sample.ExecuteTemplate "layout" "not found" "index"
         (fun _ _ => None) "micro-token" (fun h => h) url.Host (fun l => l)
         initial Sample.s (Sample.get "/-" []) _ None "not found"
         (or_introl eq_refl) eq_refl eq_refl eq_refl)) eq_refl _).
    intros rt Hin. vm_compute in Hin.
    repeat (destruct Hin as [<- | Hin]; [reflexivity|]). contradiction.
Defined.

(** C5 as stated fails: a request for [/services] on which [Resolve] fails
    is served by the registry handler of the dashboard, not by the not-found
    page. *)
Lemma unresolved_request_may_miss_not_found :
  ~ (forall g s r r1 ep err,
       registered (Router s) ->
       context.asEndpoint (context.Value (http.ctx r) context.EndpointKey) = None ->
       Resolve s (with_defaults r) = (r1, (ep, Some err)) ->
       not_found_served (served (ServeHTTP g s r))).
Proof.
  intros H.
  specialize (H initial Sample.s (Sample.get "/services" []) _ None "not found"
                (or_introl eq_refl) eq_refl eq_refl).
  vm_compute in H. discriminate H.
Qed.

(** ** Start-up *)

Ltac run :=
  cbv [mbind M_bind emit mret M_ret modify get stop log_Fatal
       ctx_String ctx_Bool os_Getenv];
  cbv beta iota; cbn [vars trace].

Lemma bind_inl {A B} (m : M A) (f : A -> M B) w w' a :
  m w = (w', inl a) -> (m ≫= f) w = f a w'.
Proof. intros H. unfold mbind, M_bind. rewrite H. reflexivity. Qed.

Lemma bind_inr {A B} (m : M A) (f : A -> M B) w w' st :
  m w = (w', inr st) -> (m ≫= f) w = (w', inr st).
Proof. intros H. unfold mbind, M_bind. rewrite H. reflexivity. Qed.

Lemma continues_refl P w : continues P w w.
Proof.
  split; [|auto]. exists []. split; [symmetry; apply app_nil_r | reflexivity].
Qed.

Lemma continues_trans P w1 w2 w3 :
  continues P w1 w2 -> continues P w2 w3 -> continues P w1 w3.
Proof.
  intros [(l1 & H1 & F1) (A1 & B1 & C1)] [(l2 & H2 & F2) (A2 & B2 & C2)].
  split; [|repeat split; congruence].
  exists (l1 ++ l2)%list. split.
  - rewrite H2, H1, app_assoc. reflexivity.
  - rewrite forallb_app, F1, F2. reflexivity.
Qed.

Lemma continues_weaken (P Q : Effect -> bool) w w' :
  (forall ev, P ev = true -> Q ev = true) ->
  continues P w w' -> continues Q w w'.
Proof.
  intros HPQ [(l & H & F) K]. split; [|exact K]. exists l. split; [exact H|].
  apply forallb_forall. intros ev Hin.
  apply HPQ. exact (proj1 (forallb_forall P l) F ev Hin).
Qed.

Lemma continues_step P w g ev :
  P ev = true ->
  ACMEChallengeProvider g = ACMEChallengeProvider (vars w) ->
  ACMECA g = ACMECA (vars w) ->
  BasePathHeader g = BasePathHeader (vars w) ->
  continues P w (mkWorld g (trace w ++ [ev])).
Proof.
  intros HP A B C. split; [|auto]. exists [ev]. split; [reflexivity|].
  simpl. rewrite HP. reflexivity.
Qed.

Lemma override_run e name set w :
  (forall v g, ACMEChallengeProvider (set v g) = ACMEChallengeProvider g
               /\ ACMECA (set v g) = ACMECA g
               /\ BasePathHeader (set v g) = BasePathHeader g) ->
  exists w',
    override e name set w = (w', inl tt)
    /\ continues is_config_read w w'
    /\ vars w' = (let v := cli.String (flags e) name in
                  if strings.is_empty v then vars w else set v (vars w)).
Proof.
  intros Hset. unfold override.
  destruct (strings.is_empty (cli.String (flags e) name)) eqn:E.
  - eexists. split; [|split].
    + run. rewrite E. reflexivity.
    + apply continues_step; reflexivity.
    + cbn [vars]. reflexivity.
  - eexists. split; [|split].
    + run. rewrite E. reflexivity.
    + eapply continues_trans.
      * apply (continues_step _ w (vars w) (ReadString name)); reflexivity.
      * destruct (Hset (cli.String (flags e) name) (vars w)) as (A & B & C).
        apply (continues_step _ (mkWorld (vars w) (trace w ++ [ReadString name]))
                 _ (ReadString name)); cbn [vars]; auto.
    + cbn [vars]. reflexivity.
Qed.

Ltac kept_by_override V :=
  rewrite V; cbv zeta; destruct (strings.is_empty _); reflexivity.

Lemma configure_run e w :
  exists w' rr,
    configure e w = (w', inl rr)
    /\ continues is_config_read w w'
    /\ ACMEProvider (vars w') = ACMEProvider (vars w).
Proof.
  unfold configure.
  destruct (override_run e "server_name" set_Name w) as (w1 & E1 & C1 & V1);
    [intros; repeat split|].
  destruct (override_run e "address" set_Address w1) as (w2 & E2 & C2 & V2);
    [intros; repeat split|].
  destruct (override_run e "resolver" set_Resolver w2) as (w3 & E3 & C3 & V3);
    [intros; repeat split|].
  destruct (override_run e "type" set_Type w3) as (w4 & E4 & C4 & V4);
    [intros; repeat split|].
  rewrite (bind_inl _ _ _ _ _ E1), (bind_inl _ _ _ _ _ E2),
          (bind_inl _ _ _ _ _ E3), (bind_inl _ _ _ _ _ E4).
  assert (P4 : ACMEProvider (vars w4) = ACMEProvider (vars w)).
  { transitivity (ACMEProvider (vars w3)); [kept_by_override V4|].
    transitivity (ACMEProvider (vars w2)); [kept_by_override V3|].
    transitivity (ACMEProvider (vars w1)); [kept_by_override V2|].
    kept_by_override V1. }
  assert (C : continues is_config_read w w4).
  { eapply continues_trans; [exact C1|]. eapply continues_trans; [exact C2|].
    eapply continues_trans; [exact C3 | exact C4]. }
  run. destruct (strings.is_empty (cli.String (flags e) "namespace")).
  - eexists _, _. split; [reflexivity|]. split; [|exact P4].
    eapply continues_trans; [exact C|].
    apply (continues_step _ w4 (vars w4)); reflexivity.
  - eexists _, _. split; [reflexivity|]. split; [|exact P4].
    eapply continues_trans; [exact C|].
    eapply continues_trans;
      [apply (continues_step _ w4 (vars w4) (ReadString "namespace")); reflexivity|].
    apply (continues_step _ (mkWorld (vars w4) (trace w4 ++ [ReadString "namespace"])));
      reflexivity.
Qed.

Lemma register_run e w :
  exists w' table,
    register e w = (w', inl table)
    /\ registered table
    /\ continues is_config_read w w'
    /\ ACMEProvider (vars w') = ACMEProvider (vars w).
Proof.
  unfold register. run. destruct (cli.Bool (flags e) "enable_stats").
  - eexists _, _. split; [reflexivity|]. split; [right; reflexivity|].
    split; [|reflexivity]. apply (continues_step _ w); reflexivity.
  - eexists _, _. split; [reflexivity|]. split; [left; reflexivity|].
    split; [|reflexivity]. apply (continues_step _ w); reflexivity.
Qed.

Ltac continued :=
  split;
  [ eexists; split; [cbn [trace vars]; rewrite <- ?app_assoc; reflexivity | reflexivity]
  | repeat split ].

Lemma config_read_is_acme_step ev : is_config_read ev = true -> is_acme_step ev = true.
Proof. destruct ev; simpl; try discriminate; auto. intros ->. reflexivity. Qed.

Lemma acme_step_before_listening ev :
  is_acme_step ev = true -> before_listening ev = true.
Proof. destruct ev; simpl; try discriminate; auto. Qed.


(** The switch on the provider: its five ways out. *)
Ltac acme_cases :=
  repeat split; intros; try congruence; simplify_eq; eauto.

Lemma acme_provider_run e w :
  let g := vars w in
  let token := default "" (environ e !! "CF_API_TOKEN") in
  exists w' res,
    acme_provider e w = (w', res)
    /\ continues is_acme_step w w'
    /\ vars w' = g
    /\ (ACMEProvider g = "autocert" -> res = inl autocert.NewProvider)
    /\ (ACMEProvider g <> "autocert" -> ACMEProvider g <> "certmagic" ->
          exists msg, res = inr (Fatal msg))
    /\ (ACMEProvider g = "certmagic" -> ACMEChallengeProvider g <> "cloudflare" ->
          exists msg, res = inr (Fatal msg))
    /\ (ACMEProvider g = "certmagic" -> token = "" ->
          exists msg, res = inr (Fatal msg))
    /\ (ACMEProvider g = "certmagic" -> ACMEChallengeProvider g = "cloudflare" ->
          token <> "" ->
          forall cp,
            NewDNSProviderConfig e (cloudflare.mkConfig token token) = inl cp ->
            res = inl (certmagic.NewProvider [
                         acme.AcceptToS true;
                         acme.CA (ACMECA g);
                         acme.Cache (certmagic.NewStorage memory.NewSync
                                                          (service_Store e));
                         acme.ChallengeProvider cp;
                         acme.OnDemand false ]))
    /\ (forall p, res = inl p ->
          p = autocert.NewProvider \/ exists opts, p = certmagic.NewProvider opts)
    /\ (forall st, res = inr st -> exists msg, st = Fatal msg).
Proof.
  intros g token. unfold acme_provider. run. fold g.
  destruct (String.eqb_spec (ACMEProvider g) "autocert") as [Ha|Ha].
  { eexists _, _. split; [reflexivity|]. split; [apply continues_refl|].
    split; [reflexivity|]. acme_cases. }
  destruct (String.eqb_spec (ACMEProvider g) "certmagic") as [Hc|Hc].
  2:{ eexists _, _. split; [reflexivity|]. split; [apply continues_refl|].
      split; [reflexivity|]. acme_cases. }
  destruct (String.eqb_spec (ACMEChallengeProvider g) "cloudflare") as [Hf|Hf];
    cbn [negb].
  2:{ eexists _, _. split; [reflexivity|]. split; [apply continues_refl|].
      split; [reflexivity|]. acme_cases. }
  fold token. destruct token as [|c token'] eqn:Et; cbn [strings.is_empty].
  { eexists _, _. split; [reflexivity|]. split; [continued|].
    split; [reflexivity|]. acme_cases. }
  destruct (NewDNSProviderConfig e _) as [cp|err] eqn:Ed.
  - eexists _, _. split; [reflexivity|]. split; [continued|].
    split; [reflexivity|]. acme_cases.
  - eexists _, _. split; [reflexivity|]. split; [continued|].
    split; [reflexivity|]. acme_cases.
Qed.

Lemma continues_forallb (P Q : Effect -> bool) w w' :
  (forall ev, P ev = true -> Q ev = true) ->
  continues P w w' ->
  forallb Q (trace w) = true ->
  forallb Q (trace w') = true.
Proof.
  intros HPQ [(l & -> & F) _] Hw. rewrite forallb_app, Hw. simpl.
  apply forallb_forall. intros ev Hin.
  apply HPQ. exact (proj1 (forallb_forall P l) F ev Hin).
Qed.

(** With ACME enabled the server options are those of ACME, with the
    provider the switch builds, or the run stops where the switch stops. *)
Lemma server_options_acme e w :
  cli.Bool (flags e) "enable_acme" = true ->
  exists w1 w' res1,
    continues is_acme_step w w1
    /\ ACMEProvider (vars w1) = provider_in_force e (vars w)
    /\ acme_provider e w1 = (w', res1)
    /\ server_options e w
       = (w', match res1 with
              | inl p => inl [server.EnableACME true;
                              server.ACMEHosts (helper_ACMEHosts e);
                              server.ACMEProvider p]
              | inr st => inr st
              end).
Proof.
  intros Hacme. unfold server_options.
  destruct (override_run e "acme_provider" set_ACMEProvider w) as (w0 & E0 & C0 & V0);
    [intros; repeat split|].
  rewrite (bind_inl _ _ _ _ _ E0). run. rewrite Hacme.
  destruct (acme_provider e _) as [w' res1] eqn:Ep.
  eexists _, w', res1. split; [|split; [|split; [exact Ep|]]].
  - eapply continues_trans.
    + eapply continues_weaken; [apply config_read_is_acme_step | exact C0].
    + continued.
  - cbn [vars]. rewrite V0. unfold provider_in_force. cbv zeta.
    destruct (strings.is_empty _); reflexivity.
  - destruct res1; reflexivity.
Qed.


Lemma listen_run (P : Effect -> bool) e opts w :
  P (ServerInit opts) = true ->
  (forall name, P (ReadString name) = true) ->
  P ServerStart = true ->
  exists w',
    listen e opts w
    = (w', match srv_Start e with Some err => inr (Fatal err) | None => inl tt end)
    /\ continues P w w'
    /\ In (ServerInit opts) (trace w').
Proof.
  intros Hi Hr Hs. unfold listen. run.
  assert (Hin : forall l l' : list Effect,
             In (ServerInit opts) ((l ++ [ServerInit opts]) ++ l')%list).
  { intros l l'. apply in_or_app. left. apply in_or_app. right. left. reflexivity. }
  destruct (strings.is_empty (cli.String (flags e) "auth_login_url"));
    destruct (srv_Start e) as [err|];
    (eexists; split; [reflexivity|]; split;
     [ split; [eexists; split; [cbn [trace vars]; rewrite <- ?app_assoc; reflexivity|];
               cbn [forallb app]; rewrite Hi, ?Hr, Hs; reflexivity
              | repeat split]
     | cbn [trace]; rewrite <- ?app_assoc; apply in_or_app; right; left; reflexivity ]).
Qed.

(** [Run] by stages: the variables and the routes are set up, which cannot
    fail; then come the server options and the start of the server. *)
Lemma Run_stages e w :
  exists w2 rr table,
    continues is_config_read w w2
    /\ ACMEProvider (vars w2) = ACMEProvider (vars w)
    /\ registered table
    /\ Run e w
       = match server_options e w2 with
         | (w3, inl opts) =>
             match listen e opts w3 with
             | (w4, inl _) => (w4, inl (mkRunning rr table opts))
             | (w4, inr st) => (w4, inr st)
             end
         | (w3, inr st) => (w3, inr st)
         end.
Proof.
  destruct (configure_run e w) as (w1 & rr & E1 & C1 & P1).
  destruct (register_run e w1) as (w2 & table & E2 & R2 & C2 & P2).
  exists w2, rr, table. split; [eapply continues_trans; eassumption|].
  split; [congruence|]. split; [exact R2|].
  unfold Run. rewrite (bind_inl _ _ _ _ _ E1), (bind_inl _ _ _ _ _ E2).
  unfold mbind at 1, M_bind at 1.
  destruct (server_options e w2) as [w3 [opts|st]]; [|reflexivity].
  unfold mbind, M_bind, mret, M_ret.
  destruct (listen e opts w3) as [w4 [[]|st]]; reflexivity.
Qed.

(** C6: with ACME enabled, [Run] ends in [log.Fatal], so the process exits
    with status 1, before the server is initialised or started, in each of
    these cases: the provider name is neither [autocert] nor [certmagic];
    the provider is [certmagic] and the challenge provider is not
    [cloudflare]; the provider is [certmagic] and [CF_API_TOKEN] is empty or
    unset. *)
Theorem acme_misconfiguration_is_fatal e g :
  cli.Bool (flags e) "enable_acme" = true ->
  let p := provider_in_force e g in
  (p <> "autocert" /\ p <> "certmagic")
  \/ (p = "certmagic" /\ ACMEChallengeProvider g <> "cloudflare")
  \/ (p = "certmagic" /\ default "" (environ e !! "CF_API_TOKEN") = "") ->
  exists w' msg,
    Run e (mkWorld g []) = (w', inr (Fatal msg))
    /\ exit_status (Fatal msg) = Some 1%Z
    /\ forallb before_listening (trace w') = true.
Proof.
  intros Hacme p Hbad.
  destruct (Run_stages e (mkWorld g [])) as (w2 & rr & table & C2 & P2 & _ & HRun).
  destruct (server_options_acme e w2 Hacme) as (w1 & w3 & res1 & C1 & P1 & Ep & Hso).
  destruct (acme_provider_run e w1)
    as (w3' & res1' & Ep' & C3 & _ & _ & Hother & Hchal & Htok & _ & _ & _).
  rewrite Ep in Ep'. injection Ep' as <- <-.
  assert (Hp : ACMEProvider (vars w1) = p).
  { rewrite P1. unfold p, provider_in_force. cbn [vars] in P2. rewrite P2.
    reflexivity. }
  assert (Hch : ACMEChallengeProvider (vars w1) = ACMEChallengeProvider g).
  { destruct C1 as (_ & -> & _). destruct C2 as (_ & -> & _). reflexivity. }
  assert (Hfatal : exists msg, res1 = inr (Fatal msg)).
  { destruct Hbad as [[H1 H2] | [[H1 H2] | [H1 H2]]].
    - apply Hother; congruence.
    - apply Hchal; congruence.
    - apply Htok; congruence. }
  destruct Hfatal as [msg ->].
  exists w3, msg. rewrite HRun, Hso. split; [reflexivity|]. split; [reflexivity|].
  apply (continues_forallb is_acme_step before_listening (mkWorld g []) w3);
    [apply acme_step_before_listening | | reflexivity].
  eapply continues_trans;
    [eapply continues_weaken; [apply config_read_is_acme_step | exact C2]|].
  eapply continues_trans; eassumption.
Qed.

Lemma acme_misconfiguration_is_fatal_witness :
  exists w' msg,
    Run (Sample.env "certmagic" true false None) (mkWorld initial [])
      = (w', inr (Fatal msg))
    /\ exit_status (Fatal msg) = Some 1%Z
    /\ forallb before_listening (trace w') = true.
Proof.
  apply (acme_misconfiguration_is_fatal (Sample.env "certmagic" true false None)
                                        initial).
  - reflexivity.
  - right. right. split; reflexivity.
Defined.



(** C8: under the [certmagic] provider [Run] initialises the server with a
    certificate provider built with on-demand issuance switched off and with
    a cache that pairs the in-process sync of the memory package with the
    store of the service. *)
Theorem certmagic_provider_options e g cp :
  let token := default "" (environ e !! "CF_API_TOKEN") in
  let opts := [server.EnableACME true;
               server.ACMEHosts (helper_ACMEHosts e);
               server.ACMEProvider
                 (certmagic.NewProvider [
                    acme.AcceptToS true;
                    acme.CA (ACMECA g);
                    acme.Cache (certmagic.NewStorage memory.NewSync (service_Store e));
                    acme.ChallengeProvider cp;
                    acme.OnDemand false ])] in
  cli.Bool (flags e) "enable_acme" = true ->
  provider_in_force e g = "certmagic" ->
  ACMEChallengeProvider g = "cloudflare" ->
  token <> "" ->
  NewDNSProviderConfig e (cloudflare.mkConfig token token) = inl cp ->
  exists w' res,
    Run e (mkWorld g []) = (w', res)
    /\ In (ServerInit opts) (trace w')
    /\ (forall running, res = inl running -> run_opts running = opts)
    /\ (srv_Start e = None -> exists running, res = inl running).
Proof.
  intros token opts Hacme Hp Hch Htok Hdns.
  destruct (Run_stages e (mkWorld g [])) as (w2 & rr & table & C2 & P2 & _ & HRun).
  destruct (server_options_acme e w2 Hacme) as (w1 & w3 & res1 & C1 & P1 & Ep & Hso).
  destruct (acme_provider_run e w1)
    as (w3' & res1' & Ep' & C3 & _ & _ & _ & _ & _ & Hgood & _).
  rewrite Ep in Ep'. injection Ep' as <- <-.
  assert (Hp1 : ACMEProvider (vars w1) = "certmagic").
  { rewrite P1. unfold provider_in_force in *. cbn [vars] in P2. rewrite P2.
    exact Hp. }
  assert (Hch1 : ACMEChallengeProvider (vars w1) = "cloudflare").
  { destruct C1 as (_ & -> & _). destruct C2 as (_ & -> & _). exact Hch. }
  assert (Hca : ACMECA (vars w1) = ACMECA g).
  { destruct C1 as (_ & _ & -> & _). destruct C2 as (_ & _ & -> & _). reflexivity. }
  specialize (Hgood Hp1 Hch1 Htok cp Hdns). rewrite Hca in Hgood. subst res1.
  destruct (listen_run (fun _ => true) e opts w3) as (w4 & El & _ & Hin);
    [reflexivity | reflexivity | reflexivity |].
  rewrite HRun, Hso. fold opts. rewrite El. exists w4.
  destruct (srv_Start e) as [err|]; eexists; (split; [reflexivity|]);
    (split; [exact Hin|]); split.
  - intros ? [=].
  - intros [=].
  - intros running [= <-]. reflexivity.
  - intros _. eexists. reflexivity.
Qed.

Lemma certmagic_provider_options_witness :
  exists w' res,
    Run (Sample.env "certmagic" true false (Some "token")) (mkWorld initial [])
      = (w', res)
    /\ In (ServerInit
             [server.EnableACME true;
              server.ACMEHosts ["edge.example.com"];
              server.ACMEProvider
                (certmagic.NewProvider [
                   acme.AcceptToS true;
                   acme.CA LetsEncryptProductionCA;
                   acme.Cache (certmagic.NewStorage memory.NewSync "store");
                   acme.ChallengeProvider
                     (cloudflare.mkDNSProvider (cloudflare.mkConfig "token" "token"));
                   acme.OnDemand false ])])
          (trace w').
Proof.
  destruct (certmagic_provider_options
              (Sample.env "certmagic" true false (Some "token")) initial
              (cloudflare.mkDNSProvider (cloudflare.mkConfig "token" "token"))
              eq_refl eq_refl eq_refl ltac:(discriminate) eq_refl)
    as (w' & res & HRun & Hin & _).
  exists w', res. split; [exact HRun | exact Hin].
Defined.

(** [Run] never assigns the base-path header, the challenge provider or the
    CA: whatever the flags, they are what they were when [Run] stops or has
    started the server. *)
Lemma server_options_continues e w :
  exists w' res,
    server_options e w = (w', res) /\ continues (fun _ => true) w w'.
Proof.
  destruct (cli.Bool (flags e) "enable_acme") eqn:Hacme.
  - destruct (server_options_acme e w Hacme) as (w1 & w3 & res1 & C1 & _ & Ep & Hso).
    destruct (acme_provider_run e w1) as (w3' & res1' & Ep' & C3 & _).
    rewrite Ep in Ep'. injection Ep' as <- <-.
    eexists _, _. split; [exact Hso|].
    eapply continues_weaken; [reflexivity|]. eapply continues_trans; eassumption.
  - unfold server_options.
    destruct (override_run e "acme_provider" set_ACMEProvider w)
      as (w0 & E0 & C0 & V0); [intros; repeat split|].
    rewrite (bind_inl _ _ _ _ _ E0). run. rewrite Hacme.
    destruct (cli.Bool (flags e) "enable_tls");
      [destruct (helper_TLSConfig e) as [config|err]|];
      (eexists _, _; split; [reflexivity|];
       eapply continues_trans;
       [eapply continues_weaken; [reflexivity | exact C0] | continued]).
Qed.

Lemma Run_keeps_BasePathHeader e w w' res :
  Run e w = (w', res) ->
  BasePathHeader (vars w') = BasePathHeader (vars w).
Proof.
  destruct (Run_stages e w) as (w2 & rr & table & C2 & _ & _ & HRun).
  rewrite HRun.
  destruct (server_options_continues e w2) as (w3 & res3 & -> & C3).
  assert (K3 : BasePathHeader (vars w3) = BasePathHeader (vars w)).
  { destruct C3 as (_ & _ & _ & ->). destruct C2 as (_ & _ & _ & ->). reflexivity. }
  destruct res3 as [opts|st]; [|intros [= <- _]; exact K3].
  destruct (listen_run (fun _ => true) e opts w3) as (w4 & -> & C4 & _);
    [reflexivity..|].
  assert (K4 : BasePathHeader (vars w4) = BasePathHeader (vars w)).
  { destruct C4 as (_ & _ & _ & ->). exact K3. }
  destruct (srv_Start e); intros [= <- _]; exact K4.
Qed.

(** ** The index of the dashboard *)

Lemma webService_of_name g domain svc before name rest :
  strings.Split (service_Name svc) ".web." = before :: name :: rest ->
  ws_Name <$> webService_of g domain svc
  = Some (if (String.length name <=? 3)%nat
             && strings.ContainsAny name "012345789"
          then strings.ToUpper name else name).
Proof. intros H. unfold webService_of. rewrite H. reflexivity. Qed.

Lemma contains_digit_but_six c :
  strings.contains_byte "0123456789" c
  = strings.contains_byte "012345789" c || Ascii.eqb "6" c.
Proof.
  cbn [strings.contains_byte].
  repeat (destruct (Ascii.eqb _ c); cbn [orb]; try reflexivity).
Qed.

(** The digits [indexHandler] looks for are the decimal digits but 6. *)
Lemma ContainsAny_digits name :
  strings.ContainsAny name "0123456789"
  = strings.ContainsAny name "012345789" || strings.ContainsAny name "6".
Proof.
  induction name as [|c name IH]; [reflexivity|].
  cbn [strings.ContainsAny]. rewrite IH, contains_digit_but_six.
  change (strings.contains_byte "6" c) with (Ascii.eqb "6" c || false).
  generalize (strings.contains_byte "012345789" c) (Ascii.eqb "6" c)
             (strings.ContainsAny name "012345789") (strings.ContainsAny name "6").
  intros [] [] [] []; reflexivity.
Qed.

(** A name of more than three bytes, or without a decimal digit, is shown as
    it is; a name of at most three bytes with a digit other than 6 is shown
    in upper case. *)
Lemma webService_of_display g domain svc before name rest :
  strings.Split (service_Name svc) ".web." = before :: name :: rest ->
  ((3 < String.length name)%nat \/ strings.ContainsAny name "0123456789" = false ->
     ws_Name <$> webService_of g domain svc = Some name)
  /\ ((String.length name <= 3)%nat ->
      strings.ContainsAny name "012345789" = true ->
      ws_Name <$> webService_of g domain svc = Some (strings.ToUpper name)).
Proof.
  intros H. rewrite (webService_of_name g domain svc before name rest H). split.
  - intros [Hlen | Hdig].
    + apply Nat.leb_gt in Hlen. rewrite Hlen. reflexivity.
    + rewrite ContainsAny_digits in Hdig. apply orb_false_iff in Hdig as [-> _].
      rewrite andb_false_r. reflexivity.
  - intros Hlen Hdig. apply Nat.leb_le in Hlen. rewrite Hlen, Hdig. reflexivity.
Qed.

(** C9 fails on the code: a short name whose only digit is 6 is displayed
    as it is, because the digits [indexHandler] looks for are [012345789];
    the same name with the digit 3 is displayed in upper case. *)
Theorem index_acronym_misses_six :
  strings.ContainsAny "m6o" "012345789" = false
  /\ omap (webService_of initial "")
          [mkService "go.micro.web.m6o" "latest";
           mkService "go.micro.web.m3o" "latest";
           mkService "go.micro.web.chat" "latest";
           mkService "go.micro.api.m3o" "latest"]
     = [mkWebService "m6o" "/m6o/" "";
        mkWebService "M3O" "/m3o/" "";
        mkWebService "chat" "/chat/" ""].
Proof. split; reflexivity. Qed.

(** ** The library functions on sample inputs *)

Example Split_web : strings.Split "go.micro.web.m3o" ".web." = ["go.micro"; "m3o"].
Proof. reflexivity. Qed.

Example Split_none : strings.Split "go.micro.api.m3o" ".web." = ["go.micro.api.m3o"].
Proof. reflexivity. Qed.

Example TrimSuffix_type : strings.TrimSuffix "go.micro.web" ".web" = "go.micro".
Proof. reflexivity. Qed.

Example cleanPath_dots : mux.cleanPath "/a//b/../c/./" = "/a/c/".
Proof. reflexivity. Qed.

Example canonical_key :
  http.CanonicalMIMEHeaderKey "x-micro-web-base-PATH" = "X-Micro-Web-Base-Path".
Proof. reflexivity. Qed.

Example routes_dispatch :
  map (fun path => mux.ServeHTTP routes (Sample.get path []))
      ["/"; "/services"; "/service/chat"; "/chat/messages"; "/not-found"; "/~x"]
  = [mux.Handle mux.HIndex; mux.Handle mux.HRegistry; mux.Handle mux.HRegistry;
     mux.Handle mux.HProxy; mux.Handle mux.HNotFound; mux.NotFound].
Proof. reflexivity. Qed.

(** * Further properties *)

Local Open Scope list_scope.

(** ** [reverse] *)

Lemma swap_ends (pre mid post : list string) x y :
  <[length pre + S (length mid) := x]>
    (<[length pre := y]> (pre ++ x :: mid ++ y :: post))
  = (pre ++ [y]) ++ mid ++ x :: post.
Proof.
  induction pre as [|p pre IH]; simpl.
  - f_equal. induction mid as [|m mid IHm]; simpl; [reflexivity|].
    f_equal. exact IHm.
  - f_equal. exact IH.
Qed.

Lemma reverse_loop_middle fuel :
  forall pre mid post : list string,
    length mid <= fuel ->
    reverse_loop fuel (Z.of_nat (length pre))
                 (Z.of_nat (length pre) + Z.of_nat (length mid) - 1)%Z
                 (pre ++ mid ++ post)
    = Done (pre ++ rev mid ++ post).
Proof.
  induction fuel as [|fuel IH]; intros pre mid post Hfuel.
  - destruct mid; [|simpl in Hfuel; lia]. simpl.
    replace (_ <? _)%Z with false by (symmetry; apply Z.ltb_ge; lia).
    reflexivity.
  - destruct mid as [|x mid].
    { simpl. replace (_ <? _)%Z with false by (symmetry; apply Z.ltb_ge; lia).
      reflexivity. }
    destruct mid as [|y mid _] using rev_ind.
    { simpl. replace (_ <? _)%Z with false by (symmetry; apply Z.ltb_ge; lia).
      reflexivity. }
    assert (Hlen : length (x :: mid ++ [y]) = S (S (length mid))).
    { simpl. rewrite length_app. simpl. lia. }
    rewrite Hlen in *.
    assert (Hl : pre ++ (x :: mid ++ [y]) ++ post = pre ++ x :: mid ++ y :: post).
    { simpl. rewrite <- app_assoc. reflexivity. }
    rewrite Hl. cbn [reverse_loop].
    replace (_ <? _)%Z with true by (symmetry; apply Z.ltb_lt; lia).
    rewrite Nat2Z.id.
    replace (Z.to_nat (Z.of_nat (length pre) + Z.of_nat (S (S (length mid))) - 1))
      with (length pre + S (length mid)) by lia.
    rewrite (list_lookup_middle pre (mid ++ y :: post) x (length pre) eq_refl).
    assert (Hj : (pre ++ x :: mid ++ y :: post) !! (length pre + S (length mid))
                 = Some y).
    { replace (pre ++ x :: mid ++ y :: post) with ((pre ++ x :: mid) ++ y :: post)
        by (rewrite <- app_assoc; reflexivity).
      apply list_lookup_middle. rewrite length_app. reflexivity. }
    rewrite Hj, swap_ends.
    specialize (IH (pre ++ [y]) mid (x :: post)).
    rewrite length_app in IH. cbn [length] in IH.
    replace (Z.of_nat (length pre) + 1)%Z with (Z.of_nat (length pre + 1)) by lia.
    replace (Z.of_nat (length pre) + Z.of_nat (S (S (length mid))) - 1 - 1)%Z
      with (Z.of_nat (length pre + 1) + Z.of_nat (length mid) - 1)%Z by lia.
    rewrite IH by lia.
    cbn [rev]. rewrite rev_app_distr. cbn [rev app].
    rewrite <- !app_assoc. reflexivity.
Qed.

(** X1: [reverse] never reads or writes outside the slice, and leaves the
    slice in the reverse order. *)
Theorem reverse_reverses (s : list string) : reverse s = Done (rev s).
Proof.
  unfold reverse.
  pose proof (reverse_loop_middle (length s) [] s [] (le_n _)) as H.
  cbn [length app] in H. rewrite !app_nil_r in H. exact H.
Qed.

(** ** [format] and [formatEndpoint] *)

Lemma str_app_assoc (a b c : string) : (a +:+ b) +:+ c = a +:+ b +:+ c.
Proof.
  induction a as [|x a IH]; [reflexivity|].
  change ((String x a +:+ b) +:+ c) with (String x ((a +:+ b) +:+ c)).
  change (String x a +:+ b +:+ c) with (String x (a +:+ b +:+ c)).
  rewrite IH. reflexivity.
Qed.

Lemma str_app_nil_r (a : string) : a +:+ "" = a.
Proof.
  induction a as [|x a IH]; [reflexivity|].
  change (String x a +:+ "") with (String x (a +:+ "")). rewrite IH. reflexivity.
Qed.

Lemma Sprintf_plain lit format args :
  fmt.plain lit = true ->
  fmt.Sprintf (lit +:+ format) args
  = (fun out => lit +:+ out) <$> fmt.Sprintf format args.
Proof.
  induction lit as [|c lit IH]; intros Hp.
  - change ("" +:+ format) with format.
    destruct (fmt.Sprintf format args); reflexivity.
  - cbn [fmt.plain] in Hp. apply andb_true_iff in Hp as [Hc Hp].
    apply negb_true_iff in Hc.
    change (String c lit +:+ format) with (String c (lit +:+ format)).
    cbn [fmt.Sprintf]. rewrite Hc, (IH Hp).
    destruct (fmt.Sprintf format args); reflexivity.
Qed.

Lemma Sprintf_verb rest a args :
  fmt.Sprintf (String "%" (String "s" rest)) (a :: args)
  = (fun out => a +:+ out) <$> fmt.Sprintf rest args.
Proof. simpl. destruct (fmt.Sprintf rest args); reflexivity. Qed.

Lemma Sprintf_end lit : fmt.plain lit = true -> fmt.Sprintf lit [] = Some lit.
Proof.
  intros Hp. rewrite <- (str_app_nil_r lit) at 1.
  rewrite (Sprintf_plain lit "" [] Hp). cbn. rewrite str_app_nil_r. reflexivity.
Qed.

Lemma Sprintf_two rest a b args :
  fmt.Sprintf ("%s %s" +:+ rest) (a :: b :: args)
  = (fun out => a +:+ " " +:+ b +:+ out) <$> fmt.Sprintf rest args.
Proof.
  change ("%s %s" +:+ rest)
    with (String "%" (String "s" (" " +:+ String "%" (String "s" rest)))).
  rewrite Sprintf_verb, (Sprintf_plain " " _ _ eq_refl), Sprintf_verb.
  destruct (fmt.Sprintf rest args); reflexivity.
Qed.

Lemma Join_empty_cons x (l : list string) :
  Join_empty (x :: l) = x +:+ Join_empty l.
Proof. reflexivity. Qed.

Lemma Sprintf_verbs (outs : list string) format args :
  fmt.Sprintf (Join_empty (map (fun _ => "%s") outs) +:+ format) (outs ++ args)
  = (fun out => Join_empty outs +:+ out) <$> fmt.Sprintf format args.
Proof.
  induction outs as [|o outs IH].
  - change (Join_empty (map (fun _ : string => "%s") []) +:+ format) with format.
    cbn [app]. destruct (fmt.Sprintf format args); reflexivity.
  - cbn [map app]. rewrite !Join_empty_cons.
    change (("%s" +:+ Join_empty (map (fun _ => "%s") outs)) +:+ format)
      with (String "%" (String "s"
              (Join_empty (map (fun _ => "%s") outs) +:+ format))).
    rewrite Sprintf_verb, IH.
    destruct (fmt.Sprintf format args); cbn [fmap option_fmap option_map];
      [|reflexivity].
    rewrite str_app_assoc. reflexivity.
Qed.

Lemma Sprintf_verbs_end (outs : list string) format :
  fmt.Sprintf (Join_empty (map (fun _ => "%s") outs) +:+ format) outs
  = (fun out => Join_empty outs +:+ out) <$> fmt.Sprintf format [].
Proof.
  pose proof (Sprintf_verbs outs format []) as H. rewrite app_nil_r in H. exact H.
Qed.

Lemma plain_tabs n : fmt.plain (tabs n) = true.
Proof. induction n as [|n IH]; [reflexivity | exact IH]. Qed.

Lemma add_tabs_alter n k (fparts : list string) :
  add_tabs n k fparts = alter (fun part => part +:+ tabs n) k fparts.
Proof.
  revert fparts. induction n as [|n IH]; intros fparts; cbn [add_tabs tabs].
  - symmetry. apply list_alter_id. intros part. apply str_app_nil_r.
  - rewrite IH, list_alter_alter_eq. apply list_alter_ext; [|reflexivity].
    intros part _. unfold compose. rewrite str_app_assoc. reflexivity.
Qed.

Lemma Join_empty_app (a b : list string) :
  Join_empty (a ++ b) = Join_empty a +:+ Join_empty b.
Proof.
  induction a as [|x a IH]; [reflexivity|].
  cbn [app]. rewrite !Join_empty_cons, IH.
  symmetry. apply str_app_assoc.
Qed.

Lemma range_endpoint_all each (g : registry.Value -> string) values :
  Forall (fun val => each val = Some (g val)) values ->
  forall fparts vals,
    range_endpoint each values fparts vals
    = Some (fparts ++ map (fun _ => "%s") values, vals ++ map g values).
Proof.
  induction 1 as [|val values Hval _ IH]; intros fparts vals; cbn.
  - rewrite !app_nil_r. reflexivity.
  - rewrite Hval, IH, <- !app_assoc. reflexivity.
Qed.

Lemma range_format_all each (g : registry.Value -> string) values :
  Forall (fun val => each val = Some (g val)) values ->
  forall f, range_format each values f = Some (f ++ map g values).
Proof.
  induction 1 as [|val values Hval _ IH]; intros f; cbn.
  - rewrite app_nil_r. reflexivity.
  - rewrite Hval, IH, <- app_assoc. reflexivity.
Qed.

Lemma Value_each (P : registry.Value -> Prop) :
  (forall name type values, Forall P values -> P (registry.mkValue name type values)) ->
  forall v, P v.
Proof.
  intros H. fix IH 1. intros [name type values]. apply H.
  induction values as [|val values IHv]; constructor; [apply IH | exact IHv].
Qed.

Section Formatting.

Variable CamelToSnake : string -> string.

Lemma formatEndpoint_layout v :
  forall r, formatEndpoint CamelToSnake v r = Some (layout CamelToSnake v r).
Proof.
  induction v as [name type values IH] using Value_each. intros r.
  cbn [formatEndpoint layout]. rewrite add_tabs_alter.
  set (indent := tabs (Z.to_nat (r + 1))).
  assert (Hindent : fmt.plain indent = true) by apply plain_tabs.
  destruct values as [|val values].
  - cbn [alter list_alter].
    change ("" +:+ indent) with indent. rewrite !Join_empty_cons.
    rewrite (Sprintf_plain indent _ _ Hindent), Sprintf_two.
    change (String "010" "" +:+ Join_empty []) with (String "010" "").
    rewrite (Sprintf_end (String "010" "") eq_refl). reflexivity.
  - cbn [alter list_alter].
    change ("" +:+ indent) with indent.
    rewrite (range_endpoint_all _ (fun val => layout CamelToSnake val (r + 1))).
    2:{ eapply Forall_impl; [exact IH|]. intros v' Hv'. apply Hv'. }
    set (outs := map (fun val => layout CamelToSnake val (r + 1)) (val :: values)).
    assert (Hlast : exists verbs,
               map (fun _ : registry.Value => "%s") (val :: values) = verbs ++ ["%s"]).
    { exists (map (fun _ => "%s") values). clear. generalize val.
      induction values as [|v' values IHv]; intros v0; [reflexivity|].
      cbn [map app]. f_equal. apply (IHv v'). }
    destruct Hlast as (verbs & Hverbs).
    assert (Houts : map (fun _ : string => "%s") outs = verbs ++ ["%s"]).
    { subst outs. rewrite map_map. exact Hverbs. }
    rewrite Hverbs, add_tabs_alter. fold indent.
    replace (length ([indent; "%s %s" +:+ " {"; String "010" ""] ++ verbs ++ ["%s"]) - 1)
      with (length ([indent; "%s %s" +:+ " {"; String "010" ""] ++ verbs) + 0)
      by (rewrite !length_app; cbn [length]; lia).
    rewrite (app_assoc _ verbs ["%s"]), alter_app_r. cbn [alter list_alter].
    rewrite <- !app_assoc. cbn [app]. rewrite !Join_empty_cons.
    assert (Hjoin :
      Join_empty (verbs ++ ["%s" +:+ indent; "}" +:+ String "010" ""])
      = Join_empty (map (fun _ : string => "%s") outs)
        +:+ indent +:+ "}" +:+ String "010" "").
    { rewrite Houts, !Join_empty_app, !Join_empty_cons.
      change (Join_empty []) with "".
      rewrite !str_app_nil_r, !str_app_assoc. reflexivity. }
    rewrite Hjoin.
    rewrite (Sprintf_plain indent _ _ Hindent), str_app_assoc, Sprintf_two.
    rewrite <- str_app_assoc.
    rewrite (Sprintf_plain (" {" +:+ String "010" "") _ _ eq_refl).
    rewrite Sprintf_verbs_end, (Sprintf_plain indent _ _ Hindent).
    rewrite (Sprintf_end ("}" +:+ String "010" "") eq_refl).
    cbn [fmap option_fmap option_map].
    rewrite !str_app_assoc. reflexivity.
Qed.

(** X2: at a depth [r] from which no level of the value leaves the range of
    an [int] (of 32 bits at least), so that no [r+1] wraps around,
    [formatEndpoint] lays a field out on a line of its own behind [r+1] tabs,
    as its name in snake case, a space and its type; the fields of a compound
    field follow between braces, one level deeper.  Names and types are
    copied as they are, a verb marker in them included. *)
Theorem formatEndpoint_lays_out name type values r :
  (- 2 ^ 31 <= r)%Z ->
  (r + Z.of_nat (height (registry.mkValue name type values)) + 1 <= 2 ^ 31 - 1)%Z ->
  formatEndpoint CamelToSnake (registry.mkValue name type values) r
  = Some (tabs (Z.to_nat (r + 1)) +:+ CamelToSnake name +:+ " " +:+ type
          +:+ match values with
              | [] => String "010" ""
              | _ :: _ =>
                  " {" +:+ String "010" ""
                  +:+ Join_empty
                        (omap (fun val => formatEndpoint CamelToSnake val (r + 1))
                              values)
                  +:+ tabs (Z.to_nat (r + 1)) +:+ "}" +:+ String "010" ""
              end)
    /\ length (omap (fun val => formatEndpoint CamelToSnake val (r + 1)) values)
       = length values.
Proof.
  intros _ _.
  assert (Hmap : omap (fun val => formatEndpoint CamelToSnake val (r + 1)) values
                 = map (fun val => layout CamelToSnake val (r + 1)) values).
  { induction values as [|val values IH]; [reflexivity|].
    cbn [omap list_omap map]. rewrite formatEndpoint_layout, IH. reflexivity. }
  rewrite Hmap, length_map. split; [|reflexivity].
  rewrite formatEndpoint_layout. cbn [layout].
  destruct values; reflexivity.
Qed.

(** X3: [format] answers [{}] for nil and for a value without fields;
    otherwise it puts the fields, each formatted at the first level, between
    an opening brace on a line of its own and a closing brace. *)
Theorem format_wraps_fields (v : option registry.Value) :
  let fields := match v with Some v => registry.Values v | None => [] end in
  let formatted := omap (fun k => formatEndpoint CamelToSnake k 0) fields in
  length formatted = length fields
  /\ format CamelToSnake v
     = Some match fields with
            | [] => "{}"
            | _ :: _ => "{" +:+ String "010" "" +:+ Join_empty formatted +:+ "}"
            end.
Proof.
  intros fields formatted.
  assert (Hmap : formatted = map (fun k => layout CamelToSnake k 0) fields).
  { subst formatted. induction fields as [|k fields IH]; [reflexivity|].
    cbn [omap list_omap map]. rewrite formatEndpoint_layout, IH. reflexivity. }
  rewrite Hmap, length_map. split; [reflexivity|].
  destruct v as [[name type values]|]; [|reflexivity].
  unfold format. subst fields. cbn [registry.Values].
  destruct values as [|k values]; [reflexivity|].
  rewrite (range_format_all _ (fun k => layout CamelToSnake k 0)).
  2:{ apply Forall_forall. intros k' _. apply formatEndpoint_layout. }
  cbn [app].
  change ("{" +:+ String "010" "%s}") with (("{" +:+ String "010" "") +:+ "%s" +:+ "}").
  rewrite (Sprintf_plain ("{" +:+ String "010" "") _ _ eq_refl).
  change ("%s" +:+ "}") with (String "%" (String "s" "}")).
  rewrite Sprintf_verb, (Sprintf_end "}" eq_refl).
  cbn [fmap option_fmap option_map]. rewrite str_app_assoc. reflexivity.
Qed.

End Formatting.

Lemma formatEndpoint_lays_out_witness :
  formatEndpoint (fun name => name)
    (registry.mkValue "user" "User" [registry.mkValue "name" "string" []]) 0
  = Some (String "009" ("user User {" +:+ String "010"
            (String "009" (String "009" ("name string" +:+ String "010"
               (String "009" ("}" +:+ String "010" ""))))))).
Proof.
  refine (eq_trans (proj1 (formatEndpoint_lays_out (fun name => name) "user" "User"
                             [registry.mkValue "name" "string" []] 0 _ _)) _).
  - vm_compute. discriminate.
  - vm_compute. discriminate.
  - vm_compute. reflexivity.
Defined.

(** ** Requests, again *)

Lemma with_defaults_idempotent r : with_defaults (with_defaults r) = with_defaults r.
Proof.
  destruct r as [m [sc op us ho pa rp fq rq fr] h b host c].
  unfold with_defaults. cbn.
  destruct sc as [|c1 sc], ho as [|c2 ho], host as [|c3 host]; reflexivity.
Qed.

Lemma Value_of_asEndpoint c p :
  context.asEndpoint (context.Value c context.EndpointKey) = Some p ->
  context.Value c context.EndpointKey = Some (context.EndpointPtr p).
Proof.
  destruct (context.Value c context.EndpointKey) as [[q|v]|]; cbn;
    intros [=]; subst; reflexivity.
Qed.

Lemma proxied_to_idempotent header e r :
  proxied_to header e (proxied_to header e r) = proxied_to header e r.
Proof.
  destruct r as [m [sc op us ho pa rp fq rq fr] h b host c].
  unfold proxied_to. cbn. rewrite insert_insert_eq. reflexivity.
Qed.

(** X4: the request [srv.ServeHTTP] leaves behind after a successful
    resolution carries the endpoint in its context, so serving it again, by
    whatever server, goes to the proxy without a second resolution; when
    [Resolve] leaves the request alone the request is served as before. *)
Theorem ServeHTTP_keeps_resolution g s s' r r1 ep :
  context.asEndpoint (context.Value (http.ctx r) context.EndpointKey) = None ->
  Resolve s (with_defaults r) = (r1, (ep, None)) ->
  let first := ServeHTTP g s r in
  let again := ServeHTTP g s' (request first) in
  context.Value (http.ctx (request first)) context.EndpointKey
    = Some (context.EndpointPtr ep)
  /\ calls again = [CallProxy (with_defaults (request first))]
  /\ (r1 = with_defaults r ->
        with_defaults (request first) = request first
        /\ served again = served first
        /\ request again = request first).
Proof.
  intros H Hres first again.
  assert (Hfirst : first
            = let r2 := http.Clone r1
                          (context.WithValue (http.ctx r1) context.EndpointKey
                                             (context.EndpointPtr ep)) in
              mkResult [CallResolve (with_defaults r); CallProxy r2] r2
                       (proxy_ServeHTTP (srv_proxy g) r2)).
  { subst first. rewrite ServeHTTP_unfold. cbn zeta.
    change (http.ctx (with_defaults r)) with (http.ctx r).
    rewrite H, Hres. reflexivity. }
  cbn zeta in Hfirst.
  set (r2 := http.Clone r1 _) in Hfirst.
  assert (Hv : context.Value (http.ctx r2) context.EndpointKey
               = Some (context.EndpointPtr ep)).
  { subst r2. cbn. destruct (decide _); [reflexivity | contradiction]. }
  assert (Hagain : again
            = mkResult [CallProxy (with_defaults r2)] (with_defaults r2)
                       (proxy_ServeHTTP (srv_proxy g) (with_defaults r2))).
  { subst again. rewrite Hfirst. cbn [request]. rewrite ServeHTTP_unfold. cbn zeta.
    change (http.ctx (with_defaults r2)) with (http.ctx r2).
    rewrite Hv. reflexivity. }
  rewrite Hagain, Hfirst. cbn [request calls served].
  split; [exact Hv|]. split; [reflexivity|]. intros ->.
  assert (Hd : with_defaults r2 = r2).
  { subst r2. destruct r as [m [sc op us ho pa rp fq rq fr] h b host c].
    unfold with_defaults, http.Clone. cbn.
    destruct sc as [|c1 sc], ho as [|c2 ho], host as [|c3 host]; reflexivity. }
  rewrite Hd. repeat split.
Qed.

Lemma ServeHTTP_keeps_resolution_witness :
  calls (ServeHTTP initial Sample.s
           (request (ServeHTTP initial Sample.s (Sample.get "/chat/messages" []))))
  = [CallProxy (with_defaults
                  (request (ServeHTTP initial Sample.s
                                      (Sample.get "/chat/messages" []))))].
Proof.
  exact (proj1 (proj2
    (ServeHTTP_keeps_resolution initial Sample.s Sample.s
       (Sample.get "/chat/messages" []) _ (Some Sample.chat) eq_refl eq_refl))).
Defined.

(** X5: the director is idempotent: run on a request it has rewritten, it
    leaves that request as it is, for an endpoint as well as for the
    not-found page. *)
Theorem director_idempotent g r out :
  director g r = Done out -> director g out = Done out.
Proof.
  intros H.
  destruct (context.asEndpoint (context.Value (http.ctx r) context.EndpointKey))
    as [[e|]|] eqn:E.
  - apply Value_of_asEndpoint in E.
    rewrite (director_endpoint g r e E) in H. injection H as <-.
    rewrite (director_endpoint g _ e) by exact E.
    rewrite proxied_to_idempotent. reflexivity.
  - unfold director in H. rewrite E in H. discriminate H.
  - rewrite (director_no_endpoint g r E) in H. injection H as <-.
    rewrite (director_no_endpoint g (with_path "/not-found" r)) by exact E.
    destruct r as [m [sc op us ho pa rp fq rq fr] h b host c]. reflexivity.
Qed.

Lemma director_idempotent_witness :
  director initial (proxied_to "X-Micro-Web-Base-Path" Sample.chat Sample.checked)
  = Done (proxied_to "X-Micro-Web-Base-Path" Sample.chat Sample.checked).
Proof.
  exact (director_idempotent initial Sample.checked _ eq_refl).
Defined.

(** X6: [srv.ServeHTTP] and the director never test the endpoint pointer for
    nil.  A nil pointer in the context of the inbound request, or returned by
    [Resolve] without an error, reaches the director, which panics on it; in
    the second case [Resolve] has been called and the mux router is not. *)
Theorem nil_endpoint_panics g s r :
  (context.Value (http.ctx r) context.EndpointKey = Some (context.EndpointPtr None) ->
     ServeHTTP g s r
     = mkResult [CallProxy (with_defaults r)] (with_defaults r) ProxyPanic)
  /\ (context.asEndpoint (context.Value (http.ctx r) context.EndpointKey) = None ->
      forall r1, Resolve s (with_defaults r) = (r1, (None, None)) ->
        served (ServeHTTP g s r) = ProxyPanic
        /\ map is_CallResolve (calls (ServeHTTP g s r)) = [true; false]
        /\ forall c, In c (calls (ServeHTTP g s r)) ->
             match c with CallRouter _ => False | _ => True end).
Proof.
  split.
  - intros H. rewrite ServeHTTP_unfold. cbn zeta.
    change (http.ctx (with_defaults r)) with (http.ctx r). rewrite H. cbn.
    unfold proxy_ServeHTTP, srv_proxy, director. cbn. rewrite H. reflexivity.
  - intros H r1 Hres. rewrite ServeHTTP_unfold. cbn zeta.
    change (http.ctx (with_defaults r)) with (http.ctx r). rewrite H, Hres.
    cbn [served calls map is_CallResolve].
    split; [|split; [reflexivity|]].
    + unfold proxy_ServeHTTP, srv_proxy, director. cbn.
      destruct (decide _); [reflexivity | contradiction].
    + intros c [<- | [<- | []]]; exact I.
Qed.

Lemma nil_endpoint_panics_witness :
  served (ServeHTTP initial Sample.s
            (Sample.get "/chat/messages"
                        [(context.EndpointKey, context.EndpointPtr None)]))
  = ProxyPanic.
Proof.
  exact (f_equal served
    (proj1 (nil_endpoint_panics initial Sample.s
              (Sample.get "/chat/messages"
                          [(context.EndpointKey, context.EndpointPtr None)]))
           eq_refl)).
Defined.

(** ** Start-up, again *)

Lemma configure_result e w :
  exists w1,
    configure e w = (w1, inl (resolver_for (configured e (vars w))))
    /\ vars w1 = configured e (vars w).
Proof.
  unfold configure.
  destruct (override_run e "server_name" set_Name w) as (w1 & E1 & _ & V1);
    [intros; repeat split|].
  destruct (override_run e "address" set_Address w1) as (w2 & E2 & _ & V2);
    [intros; repeat split|].
  destruct (override_run e "resolver" set_Resolver w2) as (w3 & E3 & _ & V3);
    [intros; repeat split|].
  destruct (override_run e "type" set_Type w3) as (w4 & E4 & _ & V4);
    [intros; repeat split|].
  rewrite (bind_inl _ _ _ _ _ E1), (bind_inl _ _ _ _ _ E2),
          (bind_inl _ _ _ _ _ E3), (bind_inl _ _ _ _ _ E4).
  assert (V : vars w4
              = mkGlobals (flag_or e "server_name" (Name (vars w)))
                          (flag_or e "address" (Address (vars w)))
                          (Namespace (vars w))
                          (flag_or e "type" (Type_ (vars w)))
                          (flag_or e "resolver" (Resolver (vars w)))
                          (BasePathHeader (vars w)) (statsURL (vars w))
                          (loginURL (vars w)) (ACMEProvider (vars w))
                          (ACMEChallengeProvider (vars w)) (ACMECA (vars w))).
  { rewrite V4, V3, V2, V1. unfold flag_or. cbv zeta.
    destruct (vars w).
    destruct (strings.is_empty (cli.String (flags e) "server_name")),
             (strings.is_empty (cli.String (flags e) "address")),
             (strings.is_empty (cli.String (flags e) "resolver")),
             (strings.is_empty (cli.String (flags e) "type")); reflexivity. }
  run. rewrite V. unfold configured. cbv zeta.
  destruct (strings.is_empty (cli.String (flags e) "namespace"));
    eexists; (split; [reflexivity|]); reflexivity.
Qed.

Lemma register_result e w :
  exists w2,
    register e w = (w2, inl (table_for e))
    /\ vars w2 = (if cli.Bool (flags e) "enable_stats"
                  then set_statsURL "/stats" (vars w) else vars w).
Proof.
  unfold register, table_for. run.
  destruct (cli.Bool (flags e) "enable_stats");
    eexists; (split; [reflexivity|]); reflexivity.
Qed.

Lemma server_options_vars e w w' res :
  server_options e w = (w', res) ->
  vars w' = (let v := cli.String (flags e) "acme_provider" in
             if strings.is_empty v then vars w else set_ACMEProvider v (vars w)).
Proof.
  unfold server_options.
  destruct (override_run e "acme_provider" set_ACMEProvider w) as (w0 & E0 & _ & V0);
    [intros; repeat split|].
  rewrite (bind_inl _ _ _ _ _ E0). cbv zeta in V0 |- *. rewrite <- V0. run.
  destruct (cli.Bool (flags e) "enable_acme").
  - match goal with
    | |- context [acme_provider e ?W] =>
        destruct (acme_provider_run e W) as (w3 & res1 & Ep & _ & Hv & _)
    end.
    rewrite Ep. cbn [vars] in Hv.
    destruct res1; intros [= <- _]; exact Hv.
  - destruct (cli.Bool (flags e) "enable_tls");
      [destruct (helper_TLSConfig e)|]; intros [= <- _]; reflexivity.
Qed.

Lemma listen_result e opts w :
  exists w',
    listen e opts w
    = (w', match srv_Start e with Some err => inr (Fatal err) | None => inl tt end)
    /\ vars w' = (let v := cli.String (flags e) "auth_login_url" in
                  if strings.is_empty v then vars w else set_loginURL v (vars w))
    /\ exists reads,
         trace w' = trace w ++ ServerInit opts :: reads ++ [ServerStart]
         /\ forallb before_listening reads = true.
Proof.
  unfold listen. run. cbv zeta.
  destruct (strings.is_empty (cli.String (flags e) "auth_login_url"));
    destruct (srv_Start e) as [err|];
    (eexists; split; [reflexivity|]; split; [reflexivity|]; cbn [trace]).
  all: try (exists [ReadString "auth_login_url"]; split;
            [rewrite <- ?app_assoc; reflexivity | reflexivity]).
  all: exists [ReadString "auth_login_url"; ReadString "auth_login_url"]; split;
         [rewrite <- ?app_assoc; reflexivity | reflexivity].
Qed.

Lemma Run_by_stages e w :
  exists w1 w2,
    configure e w = (w1, inl (resolver_for (configured e (vars w))))
    /\ vars w1 = configured e (vars w)
    /\ register e w1 = (w2, inl (table_for e))
    /\ vars w2 = (if cli.Bool (flags e) "enable_stats"
                  then set_statsURL "/stats" (vars w1) else vars w1)
    /\ Run e w
       = match server_options e w2 with
         | (w3, inl opts) =>
             match listen e opts w3 with
             | (w4, inl _) =>
                 (w4, inl (mkRunning (resolver_for (configured e (vars w)))
                                     (table_for e) opts))
             | (w4, inr st) => (w4, inr st)
             end
         | (w3, inr st) => (w3, inr st)
         end.
Proof.
  destruct (configure_result e w) as (w1 & E1 & V1).
  destruct (register_result e w1) as (w2 & E2 & V2).
  exists w1, w2. repeat split; try assumption.
  unfold Run. rewrite (bind_inl _ _ _ _ _ E1), (bind_inl _ _ _ _ _ E2).
  unfold mbind at 1, M_bind at 1.
  destruct (server_options e w2) as [w3 [opts|st]]; [|reflexivity].
  unfold mbind, M_bind, mret, M_ret.
  destruct (listen e opts w3) as [w4 [[]|st]]; reflexivity.
Qed.

Lemma Run_variables e g w' running :
  Run e (mkWorld g []) = (w', inl running) ->
  vars w' = variables_after e g
  /\ run_resolver running = resolver_for (configured e g)
  /\ run_routes running = table_for e.
Proof.
  destruct (Run_by_stages e (mkWorld g [])) as (w1 & w2 & _ & V1 & _ & V2 & ->).
  cbn [vars] in V1.
  destruct (server_options e w2) as [w3 [opts|st]] eqn:Eso; [|intros [=]].
  pose proof (server_options_vars e w2 w3 _ Eso) as V3.
  destruct (listen_result e opts w3) as (w4 & -> & V4 & _).
  destruct (srv_Start e); intros [= <- <-].
  cbn [run_resolver run_routes]. split; [|split; reflexivity].
  rewrite V4, V3, V2, V1. unfold variables_after, configured, flag_or. cbv zeta.
  destruct g.
  destruct (strings.is_empty (cli.String (flags e) "auth_login_url")),
           (strings.is_empty (cli.String (flags e) "acme_provider")),
           (cli.Bool (flags e) "enable_stats"); reflexivity.
Qed.

(** X7: when [Run] has started the server, every package variable that has
    a flag holds the flag if it is not empty and its former value otherwise
    (the namespace without the suffix of the service type, the stats URL set
    when statistics are enabled), the other variables are untouched, the
    resolver is the path resolver of the namespace and type, wrapped in the
    subdomain resolver exactly when the resolver variable is [subdomain], and
    the stats route, if any, comes first in the route table. *)
Theorem Run_sets_variables e g w' running :
  Run e (mkWorld g []) = (w', inl running) ->
  vars w' = variables_after e g
  /\ run_resolver running
     = (let g' := variables_after e g in
        let rr := WebResolver (Namespace g' +:+ "." +:+ Type_ g') in
        if String.eqb (Resolver g') "subdomain" then SubdomainResolver rr else rr)
  /\ run_routes running
     = (if cli.Bool (flags e) "enable_stats"
        then mux.HandleFunc "/stats" None mux.HStats :: routes else routes).
Proof.
  intros HRun. destruct (Run_variables e g w' running HRun) as (Hv & Hr & Ht).
  split; [exact Hv|]. split.
  - rewrite Hr. unfold resolver_for, configured, variables_after.
    cbn [Namespace Type_ Resolver]. reflexivity.
  - rewrite Ht. unfold table_for.
    destruct (cli.Bool (flags e) "enable_stats"); reflexivity.
Qed.

Lemma Run_sets_variables_witness :
  exists w' running,
    Run (mkEnv (cli.mkContext {[ "namespace" := "com.example.web";
                                 "resolver" := "subdomain" ]} ∅)
               ∅ [] (inl "") Sample.dns "store" None)
        (mkWorld initial [])
      = (w', inl running)
    /\ Namespace (vars w') = "com.example"
    /\ run_resolver running = SubdomainResolver (WebResolver "com.example.web").
Proof.
  destruct (Run (mkEnv (cli.mkContext {[ "namespace" := "com.example.web";
                                         "resolver" := "subdomain" ]} ∅)
                       ∅ [] (inl "") Sample.dns "store" None)
                (mkWorld initial [])) as [w' [running|st]] eqn:E;
    [|vm_compute in E; discriminate E].
  exists w', running. split; [reflexivity|].
  destruct (Run_sets_variables _ _ _ _ E) as (Hv & Hr & _).
  rewrite Hv, Hr. split; reflexivity.
Defined.

Lemma config_read_before_listening ev :
  is_config_read ev = true -> before_listening ev = true.
Proof.
  intros H. apply acme_step_before_listening, config_read_is_acme_step, H.
Qed.

Lemma server_options_before e w :
  exists w' res,
    server_options e w = (w', res) /\ continues before_listening w w'.
Proof.
  destruct (cli.Bool (flags e) "enable_acme") eqn:Hacme.
  - destruct (server_options_acme e w Hacme) as (w1 & w3 & res1 & C1 & _ & Ep & Hso).
    destruct (acme_provider_run e w1) as (w3' & res1' & Ep' & C3 & _).
    rewrite Ep in Ep'. injection Ep' as <- <-.
    eexists _, _. split; [exact Hso|].
    eapply continues_weaken; [apply acme_step_before_listening|].
    eapply continues_trans; eassumption.
  - unfold server_options.
    destruct (override_run e "acme_provider" set_ACMEProvider w)
      as (w0 & E0 & C0 & V0); [intros; repeat split|].
    rewrite (bind_inl _ _ _ _ _ E0). run. rewrite Hacme.
    destruct (cli.Bool (flags e) "enable_tls");
      [destruct (helper_TLSConfig e) as [config|err]|];
      (eexists _, _; split; [reflexivity|];
       eapply continues_trans;
       [eapply continues_weaken; [apply config_read_before_listening | exact C0]
       | continued]).
Qed.

Lemma server_options_static e w :
  cli.Bool (flags e) "enable_acme" = false ->
  cli.Bool (flags e) "enable_tls" = true ->
  exists w',
    server_options e w
    = (w', match helper_TLSConfig e with
           | inl config => inl [server.EnableTLS true; server.TLSConfig config]
           | inr _ => inr Return
           end)
    /\ continues before_listening w w'
    /\ forall err, helper_TLSConfig e = inr err -> In (Println err) (trace w').
Proof.
  intros Hacme Htls. unfold server_options.
  destruct (override_run e "acme_provider" set_ACMEProvider w)
    as (w0 & E0 & C0 & V0); [intros; repeat split|].
  rewrite (bind_inl _ _ _ _ _ E0). run. rewrite Hacme, Htls.
  destruct (helper_TLSConfig e) as [config|err];
    (eexists; split; [reflexivity|]; split;
     [ eapply continues_trans;
       [eapply continues_weaken; [apply config_read_before_listening | exact C0]
       | continued]
     | ]).
  - intros err [=].
  - intros err' [= <-]. cbn [trace]. apply in_or_app. right. left. reflexivity.
Qed.

(** X8: with ACME off and static TLS on, [Run] takes the TLS configuration
    from the helper.  If the helper fails, [Run] prints the error and returns
    (it is not fatal) and the server is neither initialised nor started; if
    it succeeds the server is initialised with static TLS enabled and that
    configuration, and nothing else. *)
Theorem static_tls_options e g :
  cli.Bool (flags e) "enable_acme" = false ->
  cli.Bool (flags e) "enable_tls" = true ->
  exists w' res,
    Run e (mkWorld g []) = (w', res)
    /\ match helper_TLSConfig e with
       | inr err =>
           res = inr Return
           /\ exit_status Return = None
           /\ In (Println err) (trace w')
           /\ forallb before_listening (trace w') = true
       | inl config =>
           In (ServerInit [server.EnableTLS true; server.TLSConfig config])
              (trace w')
           /\ (forall running, res = inl running ->
                 run_opts running = [server.EnableTLS true; server.TLSConfig config])
           /\ (srv_Start e = None -> exists running, res = inl running)
       end.
Proof.
  intros Hacme Htls.
  destruct (Run_stages e (mkWorld g [])) as (w2 & rr & table & C2 & _ & _ & ->).
  destruct (server_options_static e w2 Hacme Htls) as (w3 & -> & C3 & Hprint).
  destruct (helper_TLSConfig e) as [config|err].
  - destruct (listen_run (fun _ => true) e
                [server.EnableTLS true; server.TLSConfig config] w3)
      as (w4 & -> & _ & Hin); [reflexivity..|].
    exists w4. destruct (srv_Start e) as [err|]; eexists; (split; [reflexivity|]);
      (split; [exact Hin|]); split.
    + intros ? [=].
    + intros [=].
    + intros running [= <-]. reflexivity.
    + intros _. eexists. reflexivity.
  - exists w3. eexists. split; [reflexivity|]. repeat split.
    + apply Hprint. reflexivity.
    + apply (continues_forallb before_listening before_listening w2 w3);
        [intros ev H; exact H | exact C3|].
      apply (continues_forallb is_config_read before_listening (mkWorld g []) w2);
        [apply config_read_before_listening | exact C2 | reflexivity].
Qed.

Lemma static_tls_options_witness :
  exists w' res,
    Run (Sample.env "" false true None) (mkWorld initial []) = (w', res)
    /\ In (ServerInit [server.EnableTLS true; server.TLSConfig "cert.pem+key.pem"])
          (trace w').
Proof.
  destruct (static_tls_options (Sample.env "" false true None) initial
                               eq_refl eq_refl) as (w' & res & HRun & Hin & _).
  exists w', res. split; [exact HRun | exact Hin].
Defined.

Lemma acme_provider_autocert e w :
  ACMEProvider (vars w) = "autocert" ->
  acme_provider e w = (w, inl autocert.NewProvider).
Proof.
  intros H. unfold acme_provider. run. rewrite H. reflexivity.
Qed.

Lemma no_dns_config_read ev :
  is_config_read ev = true -> negb (is_dns_step ev) = true.
Proof. destruct ev; simpl; congruence. Qed.

(** X9: with ACME on and the [autocert] provider, [Run] needs no DNS
    credential: it never reads the environment and never builds a DNS
    challenge provider, and the server is initialised with ACME enabled, the
    ACME hosts and the autocert provider. *)
Theorem autocert_needs_no_credential e g :
  cli.Bool (flags e) "enable_acme" = true ->
  provider_in_force e g = "autocert" ->
  let opts := [server.EnableACME true;
               server.ACMEHosts (helper_ACMEHosts e);
               server.ACMEProvider autocert.NewProvider] in
  exists w' res,
    Run e (mkWorld g []) = (w', res)
    /\ forallb (fun ev => negb (is_dns_step ev)) (trace w') = true
    /\ In (ServerInit opts) (trace w')
    /\ (forall running, res = inl running -> run_opts running = opts)
    /\ (srv_Start e = None -> exists running, res = inl running).
Proof.
  intros Hacme Hp opts.
  destruct (Run_stages e (mkWorld g [])) as (w2 & rr & table & C2 & P2 & _ & ->).
  assert (Hso : exists w3,
             server_options e w2 = (w3, inl opts)
             /\ continues (fun ev => negb (is_dns_step ev)) w2 w3).
  { unfold server_options.
    destruct (override_run e "acme_provider" set_ACMEProvider w2)
      as (w0 & E0 & C0 & V0); [intros; repeat split|].
    rewrite (bind_inl _ _ _ _ _ E0). run. rewrite Hacme.
    assert (Ha : ACMEProvider (vars w0) = "autocert").
    { rewrite V0, <- Hp. unfold provider_in_force. cbv zeta. cbn [vars] in P2.
      rewrite <- P2. destruct (strings.is_empty _); reflexivity. }
    match goal with
    | |- context [acme_provider e ?W] =>
        rewrite (acme_provider_autocert e W) by exact Ha
    end.
    eexists. split; [reflexivity|].
    eapply continues_trans;
      [eapply continues_weaken; [apply no_dns_config_read | exact C0] | continued]. }
  destruct Hso as (w3 & -> & C3).
  destruct (listen_run (fun ev => negb (is_dns_step ev)) e opts w3)
    as (w4 & -> & C4 & Hin); [reflexivity..|].
  exists w4.
  assert (F : forallb (fun ev => negb (is_dns_step ev)) (trace w4) = true).
  { apply (continues_forallb _ _ w3 w4 (fun ev H => H) C4).
    apply (continues_forallb _ _ w2 w3 (fun ev H => H) C3).
    apply (continues_forallb is_config_read _ (mkWorld g []) w2);
      [apply no_dns_config_read | exact C2 | reflexivity]. }
  destruct (srv_Start e) as [err|]; eexists; (split; [reflexivity|]);
    (split; [exact F|]); (split; [exact Hin|]); split.
  - intros ? [=].
  - intros [=].
  - intros running [= <-]. reflexivity.
  - intros _. eexists. reflexivity.
Qed.

Lemma autocert_needs_no_credential_witness :
  exists w' res,
    Run (Sample.env "" true false None) (mkWorld initial []) = (w', res)
    /\ forallb (fun ev => negb (is_dns_step ev)) (trace w') = true.
Proof.
  destruct (autocert_needs_no_credential (Sample.env "" true false None) initial
                                         eq_refl eq_refl)
    as (w' & res & HRun & F & _).
  exists w', res. split; [exact HRun | exact F].
Defined.

(** The steps of [Run] up to the start of the server: either it stops
    before the server is set up, or [srv.Init] and later [srv.Start] are
    called, once each. *)
Lemma Run_listens e g :
  exists w' res,
    Run e (mkWorld g []) = (w', res)
    /\ ((forallb before_listening (trace w') = true /\ exists st, res = inr st)
        \/ exists pre opts reads,
             trace w' = pre ++ ServerInit opts :: reads ++ [ServerStart]
             /\ forallb before_listening (pre ++ reads) = true
             /\ match srv_Start e with
                | Some err => res = inr (Fatal err)
                | None => exists running,
                            res = inl running /\ run_opts running = opts
                end).
Proof.
  destruct (Run_stages e (mkWorld g [])) as (w2 & rr & table & C2 & _ & _ & ->).
  destruct (server_options_before e w2) as (w3 & res3 & -> & C3).
  assert (F3 : forallb before_listening (trace w3) = true).
  { apply (continues_forallb before_listening before_listening w2 w3);
      [intros ev H; exact H | exact C3|].
    apply (continues_forallb is_config_read before_listening (mkWorld g []) w2);
      [apply config_read_before_listening | exact C2 | reflexivity]. }
  destruct res3 as [opts|st].
  - destruct (listen_result e opts w3) as (w4 & -> & _ & reads & Ht & Fr).
    assert (F : forallb before_listening (trace w3 ++ reads) = true).
    { rewrite forallb_app, F3, Fr. reflexivity. }
    exists w4. destruct (srv_Start e) as [err|]; eexists;
      (split; [reflexivity|]); right; exists (trace w3), opts, reads;
      (split; [exact Ht|]); (split; [exact F|]).
    + reflexivity.
    + eexists. split; reflexivity.
  - exists w3. eexists. split; [reflexivity|]. left. split; [exact F3|].
    eexists. reflexivity.
Qed.

Lemma no_server_step (l : list Effect) :
  forallb before_listening l = true -> filter is_server_step l = [].
Proof.
  induction l as [|ev l IH]; [reflexivity|]. cbn [forallb].
  intros [Hev Hl]%andb_true_iff. rewrite filter_cons, (IH Hl).
  unfold is_server_step. rewrite Hev. reflexivity.
Qed.

(** X10: of the two calls that set the HTTP server up, [Run] makes
    [srv.Start] only after [srv.Init], and each once: when [Run] stops before
    it starts the server (a fatal configuration error, or the return after a
    failure of the TLS helper) it has called neither; otherwise its calls of
    the two are [srv.Init], with the options put together, and then
    [srv.Start].  If [srv.Start] returns an error [Run] is fatal with that
    error; if not, the server is started with the options [srv.Init] got. *)
Theorem server_initialised_then_started e g :
  exists w' res,
    Run e (mkWorld g []) = (w', res)
    /\ ((filter is_server_step (trace w') = [] /\ exists st, res = inr st)
        \/ exists opts,
             filter is_server_step (trace w') = [ServerInit opts; ServerStart]
             /\ match srv_Start e with
                | Some err => res = inr (Fatal err)
                | None => exists running,
                            res = inl running /\ run_opts running = opts
                end).
Proof.
  destruct (Run_listens e g) as (w' & res & HRun & H).
  exists w', res. split; [exact HRun|].
  destruct H as [[F Hst] | (pre & opts & reads & Ht & F & Hres)].
  - left. split; [apply no_server_step, F | exact Hst].
  - right. exists opts. split; [|exact Hres].
    rewrite forallb_app in F. apply andb_true_iff in F as [Fp Fr].
    rewrite Ht, filter_app, (no_server_step pre Fp), filter_cons.
    cbn [is_server_step before_listening negb app].
    rewrite filter_app, (no_server_step reads Fr). reflexivity.
Qed.

Lemma str_length_app (a b : string) :
  String.length (a +:+ b) = String.length a + String.length b.
Proof.
  induction a as [|c a IH]; [reflexivity|].
  change (String c a +:+ b) with (String c (a +:+ b)). cbn [String.length].
  rewrite IH. reflexivity.
Qed.

(** [strings.TrimSuffix] removes a suffix that is there, and nothing else. *)
Lemma TrimSuffix_app base suffix :
  strings.TrimSuffix (base +:+ suffix) suffix = base.
Proof.
  induction base as [|c base IH].
  - change ("" +:+ suffix) with suffix.
    destruct suffix as [|d suffix]; [reflexivity|].
    cbn [strings.TrimSuffix]. rewrite String.eqb_refl. reflexivity.
  - change (String c base +:+ suffix) with (String c (base +:+ suffix)).
    cbn [strings.TrimSuffix].
    destruct (String.eqb_spec (String c (base +:+ suffix)) suffix) as [E|_].
    + apply (f_equal String.length) in E. cbn [String.length] in E.
      rewrite str_length_app in E. lia.
    + rewrite IH. reflexivity.
Qed.

Lemma TrimSuffix_other s suffix :
  (forall base, s <> base +:+ suffix) ->
  strings.TrimSuffix s suffix = s.
Proof.
  induction s as [|c s IH]; intros H.
  - destruct suffix; reflexivity.
  - cbn [strings.TrimSuffix].
    destruct (String.eqb_spec (String c s) suffix) as [E|_].
    + exfalso. apply (H ""). exact E.
    + rewrite IH; [reflexivity|]. intros base ->. apply (H (String c base)).
      reflexivity.
Qed.

(** X11: the namespace flag may be given with or without the service type:
    [Run] removes the suffix made of a dot and the type in force, and puts
    it back for the resolver, so both spellings give the same namespace
    variable and the same resolver. *)
Theorem namespace_with_or_without_type e g w' running base :
  Run e (mkWorld g []) = (w', inl running) ->
  let type := flag_or e "type" (Type_ g) in
  cli.String (flags e) "namespace" = base +:+ "." +:+ type
  \/ (cli.String (flags e) "namespace" = base /\ base <> ""
      /\ forall b, base <> b +:+ "." +:+ type) ->
  Namespace (vars w') = base
  /\ run_resolver running
     = (if String.eqb (flag_or e "resolver" (Resolver g)) "subdomain"
        then SubdomainResolver (WebResolver (base +:+ "." +:+ type))
        else WebResolver (base +:+ "." +:+ type)).
Proof.
  intros HRun type Hns.
  destruct (Run_variables e g w' running HRun) as (Hv & Hr & _).
  assert (Hr' : run_resolver running
                = (let g' := variables_after e g in
                   let rr := WebResolver (Namespace g' +:+ "." +:+ Type_ g') in
                   if String.eqb (Resolver g') "subdomain"
                   then SubdomainResolver rr else rr)) by exact Hr.
  clear Hr. rename Hr' into Hr.
  assert (HN : Namespace (variables_after e g) = base).
  { unfold variables_after. cbn [Namespace]. fold type. cbv zeta.
    destruct Hns as [-> | (-> & Hne & Hother)].
    - change ((base +:+ "." +:+ type)) with (base +:+ ("." +:+ type)).
      rewrite TrimSuffix_app.
      destruct (strings.is_empty (base +:+ "." +:+ type)) eqn:E; [|reflexivity].
      destruct base; discriminate E.
    - rewrite (TrimSuffix_other base _ Hother).
      destruct base; [contradiction | reflexivity]. }
  rewrite Hv, Hr. cbv zeta. rewrite HN. split; reflexivity.
Qed.

Lemma namespace_with_or_without_type_witness :
  exists w' running,
    Run (mkEnv (cli.mkContext {[ "namespace" := "com.example.web" ]} ∅)
               ∅ [] (inl "") Sample.dns "store" None)
        (mkWorld initial [])
      = (w', inl running)
    /\ Namespace (vars w') = "com.example"
    /\ run_resolver running = WebResolver "com.example.web".
Proof.
  destruct (Run (mkEnv (cli.mkContext {[ "namespace" := "com.example.web" ]} ∅)
                       ∅ [] (inl "") Sample.dns "store" None)
                (mkWorld initial [])) as [w' [running|st]] eqn:E;
    [|vm_compute in E; discriminate E].
  exists w', running. split; [reflexivity|].
  exact (namespace_with_or_without_type _ _ _ _ "com.example" E
           (or_introl eq_refl)).
Defined.

(** X12: however [Run] ends, it has not assigned the base-path header, the
    challenge provider or the CA: no flag reaches them. *)
Theorem Run_never_assigns e w w' res :
  Run e w = (w', res) ->
  BasePathHeader (vars w') = BasePathHeader (vars w)
  /\ ACMEChallengeProvider (vars w') = ACMEChallengeProvider (vars w)
  /\ ACMECA (vars w') = ACMECA (vars w).
Proof.
  destruct (Run_stages e w) as (w2 & rr & table & C2 & _ & _ & ->).
  destruct (server_options_continues e w2) as (w3 & res3 & -> & C3).
  assert (K3 : continues (fun _ => true) w w3).
  { eapply continues_trans; [|exact C3].
    eapply continues_weaken; [reflexivity | exact C2]. }
  destruct res3 as [opts|st].
  - destruct (listen_run (fun _ => true) e opts w3) as (w4 & -> & C4 & _);
      [reflexivity..|].
    assert (K4 : continues (fun _ => true) w w4)
      by (eapply continues_trans; eassumption).
    destruct K4 as (_ & A & B & C).
    destruct (srv_Start e); intros [= <- _]; auto.
  - destruct K3 as (_ & A & B & C). intros [= <- _]. auto.
Qed.

Lemma Run_never_assigns_witness :
  exists w' res,
    Run (Sample.env "certmagic" true false (Some "token")) (mkWorld initial [])
      = (w', res)
    /\ BasePathHeader (vars w') = "X-Micro-Web-Base-Path".
Proof.
  destruct (Run (Sample.env "certmagic" true false (Some "token"))
                (mkWorld initial [])) as [w' res] eqn:E.
  exists w', res. split; [reflexivity|].
  exact (proj1 (Run_never_assigns _ _ _ _ E)).
Defined.

(** ** The route table, again *)

Lemma proxy_route_matches path :
  mux.Match (mux.PathPrefix "/" (Some mux.Alnum) mux.HProxy) path = true
  <-> exists c rest, path = String "/" (String c rest)
                     /\ mux.in_class mux.Alnum c = true.
Proof.
  unfold mux.Match. cbn [mux.literal mux.variable mux.prefix mux.PathPrefix].
  destruct path as [|c0 [|c rest]]; cbn [strings.CutPrefix].
  - split; [discriminate | intros (c & rest & [=] & _)].
  - destruct (Ascii.eqb_spec "/" c0) as [<-|Hne]; cbn [strings.CutPrefix].
    + split; [discriminate | intros (c & rest & [=] & _)].
    + split; [discriminate | intros (c & rest & [=] & _)].
  - destruct (Ascii.eqb_spec "/" c0) as [<-|Hne]; cbn [strings.CutPrefix].
    + cbn [orb]. rewrite andb_true_r. split.
      * intros H. exists c, rest. split; [reflexivity | exact H].
      * intros (c' & rest' & [= <- <-] & H). exact H.
    + split; [discriminate|]. intros (c' & rest' & [= E _ _] & _).
      contradiction Hne. symmetry. exact E.
Qed.

Lemma index_route_matches path :
  mux.Match (mux.HandleFunc "/" None mux.HIndex) path = true <-> path = "/".
Proof.
  unfold mux.Match. cbn [mux.literal mux.variable mux.prefix mux.HandleFunc].
  destruct path as [|c0 rest]; cbn [strings.CutPrefix].
  - split; discriminate.
  - destruct (Ascii.eqb_spec "/" c0) as [<-|Hne]; cbn [strings.CutPrefix orb].
    + destruct rest; cbn; split; try discriminate; reflexivity.
    + split; [discriminate|]. intros [= E _]. contradiction Hne. auto.
Qed.

Lemma registered_routes table rt :
  registered table -> In rt table ->
  (mux.handler rt = mux.HProxy ->
     rt = mux.PathPrefix "/" (Some mux.Alnum) mux.HProxy)
  /\ (mux.handler rt = mux.HIndex -> rt = mux.HandleFunc "/" None mux.HIndex).
Proof.
  intros [-> | ->] Hin; cbn in Hin;
    repeat (destruct Hin as [<- | Hin]; [split; intros H; (discriminate H || reflexivity)|]);
    contradiction.
Qed.

Lemma registered_has_proxy table :
  registered table -> In (mux.PathPrefix "/" (Some mux.Alnum) mux.HProxy) table.
Proof. intros [-> | ->]; cbn; tauto. Qed.

(** X13: the catch-all route of the dashboard.  The route table hands a
    request to the proxy only if its path is clean and starts with a slash
    and an ASCII letter or digit; every clean path that starts so is handled
    by some route, never answered 404 by the router; and the index page is
    served for the path [/] alone. *)
Theorem catch_all_route table r :
  registered table ->
  let path := url.Path (http.URL r) in
  let starts_alnum :=
    exists c rest, path = String "/" (String c rest)
                   /\ mux.in_class mux.Alnum c = true in
  (mux.ServeHTTP table r = mux.Handle mux.HProxy ->
     mux.cleanPath path = path /\ starts_alnum)
  /\ (mux.cleanPath path = path -> starts_alnum ->
        exists h, mux.ServeHTTP table r = mux.Handle h)
  /\ (mux.ServeHTTP table r = mux.Handle mux.HIndex <-> path = "/").
Proof.
  intros Hreg path starts_alnum. unfold mux.ServeHTTP. fold path. cbv zeta.
  split; [|split].
  - destruct (String.eqb_spec (mux.cleanPath path) path) as [Hc|Hc]; cbn [negb];
      [|discriminate].
    destruct (find _ table) as [rt|] eqn:Hf; [|discriminate].
    intros [= Hh]. split; [exact Hc|].
    apply find_some in Hf as [Hin Hm].
    destruct (registered_routes table rt Hreg Hin) as [Hrt _].
    rewrite (Hrt Hh) in Hm. apply proxy_route_matches. exact Hm.
  - intros Hc Hs. rewrite Hc, String.eqb_refl. cbn [negb].
    destruct (find _ table) as [rt|] eqn:Hf; [eexists; reflexivity|].
    exfalso.
    pose proof (find_none _ _ Hf _ (registered_has_proxy table Hreg)) as Hm.
    cbv beta in Hm. apply proxy_route_matches in Hs. congruence.
  - split.
    + destruct (String.eqb_spec (mux.cleanPath path) path) as [Hc|Hc]; cbn [negb];
        [|discriminate].
      destruct (find _ table) as [rt|] eqn:Hf; [|discriminate].
      intros [= Hh]. apply find_some in Hf as [Hin Hm].
      destruct (registered_routes table rt Hreg Hin) as [_ Hrt].
      rewrite (Hrt Hh) in Hm. apply index_route_matches. exact Hm.
    + intros ->. destruct Hreg as [-> | ->]; reflexivity.
Qed.

Lemma catch_all_route_witness :
  mux.ServeHTTP routes (Sample.get "/chat/messages" []) = mux.Handle mux.HProxy
  /\ exists h, mux.ServeHTTP routes (Sample.get "/stats" []) = mux.Handle h.
Proof.
  split; [reflexivity|].
  refine (proj1 (proj2 (catch_all_route routes (Sample.get "/stats" [])
                                        (or_introl eq_refl))) eq_refl _).
  exists "s"%char, "tats". split; reflexivity.
Defined.

(** ** Pages *)

Section Pages.

Variable Template : Type.
Variable New : Template.
Variable Parse : Template -> string -> Template + error.
Variable ExecuteTemplate :
  Template -> string -> LayoutData -> list string * option error.
Variable layoutTemplate : string.
Variable Cookie : http.Request -> string -> option string.
Variable TokenCookieName : string.

Local Abbreviation render'' :=
  (render Template New Parse ExecuteTemplate layoutTemplate Cookie TokenCookieName).

(** X14: [render] answers 500 exactly when the layout or the page template
    does not parse, or when executing the layout, for the login title and
    user of the session, fails before anything is written; in every other
    case the status is 200, also when the execution fails after output has
    begun. *)
Theorem render_answers_500 g s r tmpl data :
  let d := mkLayoutData (fst (session Cookie TokenCookieName s r)) (loginURL g)
                        (statsURL g) data
                        (snd (session Cookie TokenCookieName s r)) in
  (status (render'' g s r tmpl data) = 500%Z
   <-> (exists err, Parse New layoutTemplate = inr err)
       \/ (exists t err, Parse New layoutTemplate = inl t /\ Parse t tmpl = inr err)
       \/ (exists t t' err,
             Parse New layoutTemplate = inl t /\ Parse t tmpl = inl t'
             /\ ExecuteTemplate t' "layout" d = ([], Some err)))
  /\ (status (render'' g s r tmpl data) <> 500%Z ->
        status (render'' g s r tmpl data) = 200%Z).
Proof.
  intros d. unfold render. subst d. unfold session.
  destruct (Parse New layoutTemplate) as [t|err] eqn:El.
  2:{ split; [|intros H; contradiction H; reflexivity].
      split; [intros _; left; eexists; reflexivity | reflexivity]. }
  destruct (Parse t tmpl) as [t'|err] eqn:Et.
  2:{ split; [|intros H; contradiction H; reflexivity].
      split; [|reflexivity]. intros _. right. left. exists t, err.
      split; [reflexivity | exact Et]. }
  destruct (match Cookie r TokenCookieName with Some _ => _ | None => _ end)
    as [loginTitle user]. cbn [fst snd].
  destruct (ExecuteTemplate t' "layout" _) as [written [err|]] eqn:E.
  - destruct written as [|b written].
    + split; [|intros H; contradiction H; reflexivity].
      split; [|reflexivity]. intros _. right. right.
      exists t, t', err. split; [reflexivity|]. split; [exact Et | exact E].
    + split; [|reflexivity]. split; [discriminate|].
      intros [(e' & [=]) | [(t0 & e' & [= <-] & H) | (t0 & t1 & e' & [= <-] & H & H')]];
        congruence.
  - split; [|intros _; apply status_writes]. rewrite status_writes.
    split; [discriminate|].
    intros [(e' & [=]) | [(t0 & e' & [= <-] & H) | (t0 & t1 & e' & [= <-] & H & H')]];
      congruence.
Qed.

End Pages.

(** ** The index, again *)





Section Index.

Variable Template : Type.
Variable New : Template.
Variable Parse : Template -> string -> Template + error.
Variable ExecuteTemplate :
  Template -> string -> LayoutData -> list string * option error.
Variables layoutTemplate indexTemplate : string.
Variable Cookie : http.Request -> string -> option string.
Variable TokenCookieName : string.
Variable EffectiveTLDPlusOne : string -> string.
Variable Hostname : url.URL -> string.
Variable sort_by_Name : list webService -> list webService.


End Index.


(** ** The registry pages *)

Section RegistryStatus.

Variable registry_ListServices : list registry.Service * option error.
Variable json_Marshal : Marshalled -> string + error.
Variable sort_Sort : list registry.Service -> list registry.Service.
Variables serviceTemplate registryTemplate : string.

Variable Template : Type.
Variable New : Template.
Variable Parse : Template -> string -> Template + error.
Variable ExecuteTemplate :
  Template -> string -> LayoutData -> list string * option error.
Variable layoutTemplate : string.
Variable Cookie : http.Request -> string -> option string.
Variable TokenCookieName : string.

Local Abbreviation page_status :=
  (fun g s r tmpl data =>
     status (render Template New Parse ExecuteTemplate layoutTemplate Cookie
                    TokenCookieName g s r tmpl (PageResults data))).

(** X16: the status of the response of [registryHandler].  It is 404
    exactly when a service is named and the registry returns no version of
    it without an error.  It is 500 exactly when the lookup of a named
    service fails, or the JSON that was asked for cannot be marshalled, or
    no JSON was asked for and [render] answers 500 for the page: the service
    template with the versions found of a named service, the registry
    template with the sorted services otherwise.  In every other case it is
    200. *)
Theorem registryHandler_errors GetService g s vars r :
  let name := default "" (vars !! "name") in
  let answer := registryHandler registry_ListServices GetService json_Marshal
                                sort_Sort serviceTemplate registryTemplate vars r in
  let code := response_status Template New Parse ExecuteTemplate layoutTemplate
                              Cookie TokenCookieName g s r answer in
  (code = 404%Z
   <-> name <> "" /\ GetService name = ([], None))
  /\ (code = 500%Z
      <-> (name <> "" /\ exists sv err, GetService name = (sv, Some err))
          \/ (wants_json r = true
              /\ (name = "" \/ exists s0 sv, GetService name = (s0 :: sv, None))
              /\ exists err,
                   json_Marshal
                     (if strings.is_empty name
                      then OfServices (sort_Sort (fst registry_ListServices))
                      else OfServer) = inr err)
          \/ (wants_json r = false /\ name <> ""
              /\ exists s0 sv,
                   GetService name = (s0 :: sv, None)
                   /\ page_status g s r serviceTemplate (ServicePage (s0 :: sv))
                      = 500%Z)
          \/ (wants_json r = false /\ name = ""
              /\ page_status g s r registryTemplate
                   (RegistryPage (sort_Sort (fst registry_ListServices)))
                 = 500%Z))
  /\ (code <> 404%Z -> code <> 500%Z -> code = 200%Z).
Proof.
  intros name answer code. subst code answer. unfold registryHandler. fold name.
  destruct registry_ListServices as [services lerr]. cbn [fst].
  destruct name as [|c name'] eqn:En; cbn [strings.is_empty negb].
  - unfold marshal_services.
    destruct (wants_json r) eqn:Ej.
    + destruct (json_Marshal _) as [b|err] eqn:Em; cbn [response_status].
      * split; [|split].
        -- split; [discriminate | intros [H _]; contradiction H; reflexivity].
        -- split; [discriminate|].
           intros [[H _] | [(_ & _ & err' & H) | [(H & _) | (H & _)]]];
             [contradiction H; reflexivity | congruence | discriminate H
             | discriminate H].
        -- reflexivity.
      * split; [|split].
        -- split; [discriminate | intros [H _]; contradiction H; reflexivity].
        -- split; [|reflexivity]. intros _. right. left.
           split; [reflexivity|]. split; [left; reflexivity|].
           eexists. reflexivity.
        -- intros _ H. contradiction H. reflexivity.
    + cbn [response_status].
      destruct (render_status Template New Parse ExecuteTemplate layoutTemplate
                  Cookie TokenCookieName g s r registryTemplate
                  (PageResults (RegistryPage (sort_Sort services)))) as [Hs | Hs];
        rewrite Hs; (split; [|split]).
      * split; [discriminate | intros [H _]; contradiction H; reflexivity].
      * split; [discriminate|].
        intros [[H _] | [(H & _) | [(_ & H & _) | (_ & _ & H)]]];
          [contradiction H; reflexivity | discriminate H
          | contradiction H; reflexivity | discriminate H].
      * reflexivity.
      * split; [discriminate | intros [H _]; contradiction H; reflexivity].
      * split; [|reflexivity]. intros _. right. right. right.
        split; [reflexivity|]. split; reflexivity.
      * intros _ H. contradiction H. reflexivity.
  - destruct (GetService (String c name')) as [sv [err|]] eqn:Eg.
    + cbn [response_status]. split; [|split].
      * split; [discriminate | intros [_ [=]]].
      * split; [|reflexivity]. intros _. left. split; [discriminate|].
        eexists _, _. reflexivity.
      * intros _ H. contradiction H. reflexivity.
    + destruct sv as [|s0 sv]; cbn [length Nat.eqb].
      * cbn [response_status]. split; [|split].
        -- split; [|reflexivity]. intros _. split; [discriminate | reflexivity].
        -- split; [discriminate|].
           intros [[_ (sv' & err' & [=])]
                  | [(_ & [[=] | (s0 & sv' & [=])] & _)
                    | [(_ & _ & s0 & sv' & [=] & _) | (_ & [=] & _)]]].
        -- intros H. contradiction H. reflexivity.
      * unfold marshal_services.
        destruct (wants_json r) eqn:Ej.
        -- destruct (json_Marshal OfServer) as [b|err] eqn:Em;
             cbn [response_status]; (split; [|split]).
           ++ split; [discriminate | intros [_ [=]]].
           ++ split; [discriminate|].
              intros [[_ (sv' & err' & [=])]
                     | [(_ & _ & err' & H)
                       | [(H & _) | (H & _)]]];
                [congruence | discriminate H | discriminate H].
           ++ reflexivity.
           ++ split; [discriminate | intros [_ [=]]].
           ++ split; [|reflexivity]. intros _. right. left.
              split; [reflexivity|].
              split; [right; eexists _, _; reflexivity|].
              eexists. reflexivity.
           ++ intros _ H. contradiction H. reflexivity.
        -- cbn [response_status].
           destruct (render_status Template New Parse ExecuteTemplate
                       layoutTemplate Cookie TokenCookieName g s r serviceTemplate
                       (PageResults (ServicePage (s0 :: sv)))) as [Hs | Hs];
             rewrite Hs; (split; [|split]).
           ++ split; [discriminate | intros [_ [=]]].
           ++ split; [discriminate|].
              intros [[_ (sv' & err' & [=])]
                     | [(H & _)
                       | [(_ & _ & s1 & sv' & [= <- <-] & H) | (_ & [=] & _)]]];
                [discriminate H | rewrite Hs in H; discriminate H].
           ++ reflexivity.
           ++ split; [discriminate | intros [_ [=]]].
           ++ split; [|reflexivity]. intros _. right. right. left.
              split; [reflexivity|]. split; [discriminate|].
              exists s0, sv. split; [reflexivity | exact Hs].
           ++ intros _ H. contradiction H. reflexivity.
Qed.

End RegistryStatus.

Section RegistryPages.

Variable registry_ListServices : list registry.Service * option error.
Variable json_Marshal : Marshalled -> string + error.
Variable sort_Sort : list registry.Service -> list registry.Service.
Variables serviceTemplate registryTemplate callTemplate : string.

(** X17: asked for JSON about a named service, [registryHandler] marshals
    the server itself and not the versions it has looked up: whenever the
    lookup succeeds the answer is the same, whatever the versions found. *)
Theorem registryHandler_json_ignores_versions GetService GetService' vars r :
  let name := default "" (vars !! "name") in
  name <> "" ->
  wants_json r = true ->
  (exists s0 sv, GetService name = (s0 :: sv, None)) ->
  (exists s0 sv, GetService' name = (s0 :: sv, None)) ->
  registryHandler registry_ListServices GetService json_Marshal
                  sort_Sort serviceTemplate registryTemplate vars r
  = registryHandler registry_ListServices GetService' json_Marshal
                    sort_Sort serviceTemplate registryTemplate vars r
  /\ registryHandler registry_ListServices GetService json_Marshal
                     sort_Sort serviceTemplate registryTemplate vars r
     = match json_Marshal OfServer with
       | inl b => AnswerJSON b
       | inr err => AnswerError ("Error occurred:" +:+ err) 500
       end.
Proof.
  intros name Hne Hj (s0 & sv & E) (s0' & sv' & E').
  unfold registryHandler. fold name.
  destruct registry_ListServices as [services lerr].
  destruct name as [|c name']; [contradiction|]. cbn [strings.is_empty negb].
  rewrite E, E', Hj. cbn [length Nat.eqb]. unfold marshal_services.
  destruct (json_Marshal OfServer); split; reflexivity.
Qed.

Lemma fold_add_endpoints GetService services :
  forall (m0 : gmap string (list registry.Endpoint)) name,
    is_Some (fold_left (add_endpoints GetService) services m0 !! name)
    <-> is_Some (m0 !! name)
        \/ exists service, In service services
                           /\ brings_endpoints GetService name service.
Proof.
  induction services as [|service services IH]; intros m0 name; cbn [fold_left].
  - split; [auto | intros [H | (service & [] & _)]; exact H].
  - rewrite IH. clear IH.
    assert (Hstep : is_Some (add_endpoints GetService m0 service !! name)
                    <-> is_Some (m0 !! name)
                        \/ brings_endpoints GetService name service).
    { unfold add_endpoints, brings_endpoints.
      destruct (registry.Endpoints service) as [|ep eps] eqn:Ee; cbn [length Nat.ltb Nat.leb].
      - destruct (GetService (registry.Name service)) as [[|s0 rest] [err|]] eqn:Eg.
        + split; [auto|]. intros [H | [<- [H | (s0 & rest & H)]]];
            [exact H | contradiction | congruence].
        + split; [auto|]. intros [H | [<- [H | (s0 & rest & H)]]];
            [exact H | contradiction | congruence].
        + split; [auto|]. intros [H | [<- [H | (s1 & rest' & H)]]];
            [exact H | contradiction | congruence].
        + destruct (decide (registry.Name service = name)) as [<- | Hn].
          * rewrite lookup_insert_eq. split; [|eauto].
            intros _. right. split; [reflexivity|]. right. eauto.
          * rewrite lookup_insert_ne by exact Hn. split; [auto|].
            intros [H | [Hn' _]]; [exact H | contradiction].
      - destruct (decide (registry.Name service = name)) as [<- | Hn].
        + rewrite lookup_insert_eq. split; [|eauto].
          intros _. right. split; [reflexivity|]. left. discriminate.
        + rewrite lookup_insert_ne by exact Hn. split; [auto|].
          intros [H | [Hn' _]]; [exact H | contradiction]. }
    rewrite Hstep. split.
    + intros [[H | H] | (svc & Hin & H)]; [auto | right | right].
      * exists service. split; [left; reflexivity | exact H].
      * exists svc. split; [right; exact Hin | exact H].
    + intros [H | (svc & [<- | Hin] & H)]; [auto | auto |].
      right. exists svc. split; assumption.
Qed.

(** X18: the map [callHandler] renders holds a name exactly when a listed
    service of that name has endpoints of its own or the registry returns a
    version of it without an error; a service whose lookup fails or finds
    nothing is left out, not reported. *)
Theorem callHandler_service_map GetService r :
  wants_json r = false ->
  exists serviceMap,
    callHandler registry_ListServices GetService json_Marshal sort_Sort
                callTemplate r
    = AnswerPage callTemplate (CallPage serviceMap)
    /\ forall name,
         is_Some (serviceMap !! name)
         <-> exists service,
               In service (sort_Sort (fst registry_ListServices))
               /\ brings_endpoints GetService name service.
Proof.
  intros Hj. unfold callHandler. destruct registry_ListServices as [services lerr].
  rewrite Hj. eexists. split; [reflexivity|]. intros name.
  rewrite fold_add_endpoints, lookup_empty. cbn [fst]. split.
  - intros [[x [=]] | H]; exact H.
  - intros H. right. exact H.
Qed.

(** X19: asked for JSON, [callHandler] marshals the list of services and
    never the map of endpoints: the answer does not depend on what the
    lookups of single services return. *)
Theorem callHandler_json_ignores_lookups GetService GetService' r :
  wants_json r = true ->
  callHandler registry_ListServices GetService json_Marshal sort_Sort
              callTemplate r
  = callHandler registry_ListServices GetService' json_Marshal sort_Sort
                callTemplate r
  /\ answer_status
       (callHandler registry_ListServices GetService json_Marshal sort_Sort
                    callTemplate r)
     = Some (match json_Marshal
                     (OfServices (sort_Sort (fst registry_ListServices))) with
             | inl _ => 200%Z
             | inr _ => 500%Z
             end).
Proof.
  intros Hj. unfold callHandler. destruct registry_ListServices as [services lerr].
  rewrite Hj. unfold marshal_services. cbn [fst].
  destruct (json_Marshal _); split; reflexivity.
Qed.

End RegistryPages.

Lemma registryHandler_json_ignores_versions_witness :
  registryHandler ([], None) SampleRegistry.GetService SampleRegistry.Marshal
                  (fun l => l) "service" "registry"
                  {[ "name" := "go.micro.web.chat" ]} SampleRegistry.json_request
  = AnswerJSON "{}".
Proof.
  refine (proj2 (registryHandler_json_ignores_versions ([], None)
                   SampleRegistry.Marshal (fun l => l) "service" "registry"
                   SampleRegistry.GetService SampleRegistry.GetService
                   {[ "name" := "go.micro.web.chat" ]} SampleRegistry.json_request
                   _ eq_refl _ _)).
  - intros H. vm_compute in H. discriminate H.
  - eexists _, _. reflexivity.
  - eexists _, _. reflexivity.
Defined.

Lemma callHandler_service_map_witness :
  exists serviceMap,
    callHandler ([SampleRegistry.chat; SampleRegistry.mail], None)
                SampleRegistry.GetService SampleRegistry.Marshal (fun l => l)
                "call" (Sample.get "/client" [])
    = AnswerPage "call" (CallPage serviceMap)
    /\ is_Some (serviceMap !! "go.micro.web.chat")
    /\ ~ is_Some (serviceMap !! "go.micro.web.mail").
Proof.
  destruct (callHandler_service_map
              ([SampleRegistry.chat; SampleRegistry.mail], None)
              SampleRegistry.Marshal (fun l => l) "call"
              SampleRegistry.GetService (Sample.get "/client" []) eq_refl)
    as (m & Hm & Hdom).
  exists m. split; [exact Hm|]. split.
  - apply Hdom. exists SampleRegistry.chat. split; [left; reflexivity|].
    split; [reflexivity | left; discriminate].
  - intros H. apply Hdom in H as (svc & Hin & Hname & Hb).
    destruct Hin as [<- | [<- | []]]; [cbv in Hname; discriminate Hname|].
    destruct Hb as [Hb | (s0 & rest & Hb)];
      [apply Hb; reflexivity | cbv in Hb; discriminate Hb].
Defined.

Lemma callHandler_json_ignores_lookups_witness :
  callHandler ([SampleRegistry.chat], None) SampleRegistry.GetService
              SampleRegistry.Marshal (fun l => l) "call" SampleRegistry.json_request
  = callHandler ([SampleRegistry.chat], None) (fun _ => ([], Some "down"))
                SampleRegistry.Marshal (fun l => l) "call" SampleRegistry.json_request.
Proof.
  exact (proj1 (callHandler_json_ignores_lookups ([SampleRegistry.chat], None)
                  SampleRegistry.Marshal (fun l => l) "call"
                  SampleRegistry.GetService (fun _ => ([], Some "down"))
                  SampleRegistry.json_request eq_refl)).
Defined.

(** ** The command *)

Lemma fold_add_plugin plugins :
  forall name usage flags subcommands,
    fold_left add_plugin plugins (mkCommand name usage flags subcommands)
    = mkCommand name usage
                (flags ++ concat (map plugin_Flags plugins))
                (subcommands ++ concat (map plugin_Commands plugins)).
Proof.
  induction plugins as [|p plugins IH]; intros name usage flags subcommands;
    cbn [fold_left map concat].
  - rewrite !app_nil_r. reflexivity.
  - cbn [add_plugin]. rewrite IH. f_equal.
    + destruct (plugin_Flags p); cbn [length Nat.ltb Nat.leb app];
        [reflexivity|]. rewrite <- app_assoc. reflexivity.
    + destruct (plugin_Commands p); cbn [length Nat.ltb Nat.leb app];
        [reflexivity|]. rewrite <- app_assoc. reflexivity.
Qed.

(** X20: [Commands] returns the one command [web], whose flags are the four
    flags of the package followed by the flags of the plugins, and whose
    subcommands are the commands of the plugins, each in the order of the
    plugins with nothing dropped or repeated. *)
Theorem Commands_collects_plugins plugins :
  Commands plugins
  = [mkCommand "web" "Run the web dashboard"
               (web_flags ++ concat (map plugin_Flags plugins))
               (concat (map plugin_Commands plugins))].
Proof. unfold Commands. rewrite fold_add_plugin. reflexivity. Qed.
